(** * talk-with-eyes: gaze filter and dwell-selection wheel

    A shallow embedding of the two algorithmic parts of the application:

    - [GazeFilter]: the [useEyeTracking] hook's [computeFilteredGazePoint]
      and [handleGazeData], in the copy of the hook that rejects outliers
      and runs the moving-average pass;
    - [Wheel]: the [PhoneticWheel] component's selection state machine
      ([letterAssignments], [isZoneInteractive], [handleZoneActivation],
      the gaze effect and the dwell effect with its animation-frame tick).

    JavaScript numbers that carry coordinates are IEEE 754 binary64 values
    and are modelled by Rocq's primitive floats.  Timestamps are readings
    of [Date.now()]: integral milliseconds, far below 2^53, on which the
    float subtraction and comparison of the source are exact; they are
    modelled by [Z] and injected into floats where the source mixes them
    with coordinates. *)

From Stdlib Require Import ZArith List Bool Lia Sorted.
From Stdlib Require Import Floats Uint63.
From Stdlib Require Import NArith.
From Stdlib Require Strings.Byte.
From stdpp Require Import base option list gmap strings.

#[local] Set Warnings "-inexact-float".
#[local] Open Scope Z_scope.

(** ** JavaScript numbers *)

Module JS.

#[local] Open Scope float_scope.

(** [Number.isFinite]. *)
Definition Number_isFinite (v : float) : bool := PrimFloat.is_finite v.

Definition is_neg_zero (v : float) : bool :=
  match PrimFloat.classify v with NZero => true | _ => false end.

(** [Math.max] and [Math.min] on two arguments: NaN is contagious and
    -0 is below +0. *)
Definition Math_max (a b : float) : float :=
  if PrimFloat.is_nan a || PrimFloat.is_nan b then nan
  else if a <? b then b
  else if b <? a then a
  else if is_neg_zero a then b else a.

Definition Math_min (a b : float) : float :=
  if PrimFloat.is_nan a || PrimFloat.is_nan b then nan
  else if a <? b then a
  else if b <? a then b
  else if is_neg_zero a then a else b.

(** [Math.sqrt]: the correctly rounded square root. *)
Definition Math_sqrt (v : float) : float := PrimFloat.sqrt v.

(** An integer (a timestamp difference, an array length) used as a
    number.  Exact below 2^53. *)
Definition of_Z (z : Z) : float :=
  if (z <? 0)%Z then - PrimFloat.of_uint63 (Uint63.of_Z (- z))
  else PrimFloat.of_uint63 (Uint63.of_Z z).

Definition of_nat (n : nat) : float := of_Z (Z.of_nat n).

(** The functions of [Math] that ECMAScript leaves
    implementation-approximated.  Every theorem below holds for any
    implementation of them. *)
Class MathLib := {
  Math_hypot : float -> float -> float;
  Math_exp : float -> float;
  Math_pow : float -> float -> float
}.

(** *** A reference [MathLib]

    One admissible approximation, used to run the model on concrete
    inputs. *)

(** exp by scaling and squaring: exp v = (exp (v / 1024)) ^ 1024, the
    inner value by a Taylor polynomial in Horner form. *)
Definition exp_poly (r : float) : float :=
  fold_right (fun k acc => 1 + r / k * acc) 1
    [1; 2; 3; 4; 5; 6; 7; 8; 9; 10; 11; 12].

Fixpoint square_times (n : nat) (v : float) : float :=
  match n with
  | O => v
  | S n' => let w := square_times n' v in w * w
  end.

Definition exp_ref (v : float) : float :=
  if PrimFloat.is_nan v then nan
  else if v <? -746 then 0
  else if 710 <? v then infinity
  else square_times 10 (exp_poly (v / 1024)).

(** ln through the exponent and 2 * atanh ((m - 1) / (m + 1)). *)
Definition atanh_poly (u : float) : float :=
  let u2 := u * u in
  u * fold_right (fun k acc => 1 / k + u2 * acc) 0
        [1; 3; 5; 7; 9; 11; 13; 15; 17; 19; 21; 23; 25; 27; 29; 31; 33].

Definition ln2 : float := 0x1.62e42fefa39efp-1.

Definition ln_ref (v : float) : float :=
  if PrimFloat.is_nan v || (v <? 0) then nan
  else if v =? 0 then neg_infinity
  else if PrimFloat.is_infinity v then infinity
  else
    let '(m, e) := Z.frexp v in
    of_Z e * ln2 + 2 * atanh_poly ((m - 1) / (m + 1)).

Definition hypot_ref (a b : float) : float :=
  if PrimFloat.is_infinity a || PrimFloat.is_infinity b then infinity
  else Math_sqrt (a * a + b * b).

(** pow for a non-negative base, the only use the filter makes of it. *)
Definition pow_ref (b e : float) : float :=
  if e =? 0 then 1
  else if PrimFloat.is_nan b || PrimFloat.is_nan e then nan
  else if b =? 1 then (if PrimFloat.is_infinity e then nan else 1)
  else if b =? 0 then (if 0 <? e then 0 else infinity)
  else exp_ref (e * ln_ref b).

Definition RefMath : MathLib :=
  {| Math_hypot := hypot_ref; Math_exp := exp_ref; Math_pow := pow_ref |}.

End JS.

Import JS.

(** ** The gaze filter (hook [useEyeTracking]) *)

Module GazeFilter.

Definition GAZE_HISTORY_MS : Z := 2000.
Definition MAX_HISTORY_POINTS : nat := 200.
Definition FIXATION_WINDOW_MS : Z := 800.
Definition FIXATION_MIN_DURATION_MS : Z := 250.
Definition FIXATION_MAX_RADIUS_PX : float := 45.
Definition MIN_FIXATION_SAMPLES : nat := 8.
Definition SMOOTH_MIN_ALPHA : float := 0.08.
Definition SMOOTH_MAX_ALPHA : float := 0.6.
Definition MAX_VELOCITY_PX_PER_S : float := 1500.
Definition OUTLIER_THRESHOLD_PX : float := 120.

Definition clamp (value min max : float) : float :=
  Math_min max (Math_max min value).

(** An entry of [gazeHistoryRef] and the value of [smoothedPointRef]:
    [{ x, y, time }]. *)
Record Sample := { x : float; y : float; time : Z }.

(** The returned [{ x, y }]. *)
Record Point := { px : float; py : float }.

Definition xy (s : Sample) : Point := {| px := x s; py := y s |}.

(** The two refs the filter reads and writes. *)
Record FilterState := {
  gazeHistory : list Sample;
  smoothedPoint : option Sample
}.

(** [resetSmoothingState]. *)
Definition resetSmoothingState : FilterState :=
  {| gazeHistory := []; smoothedPoint := None |}.

Section Filter.
Context {M : MathLib}.

#[local] Open Scope float_scope.

(** The outlier test: the last history entry when the raw sample lies
    further than [OUTLIER_THRESHOLD_PX] from it. *)
Definition outlierOf (history : list Sample) (rawX rawY : float)
  : option Sample :=
  match last history with
  | Some lastPoint =>
      let distance := Math_hypot (rawX - x lastPoint) (rawY - y lastPoint) in
      if OUTLIER_THRESHOLD_PX <? distance then Some lastPoint else None
  | None => None
  end.

(** [while (history.length > MAX_HISTORY_POINTS) history.shift()]. *)
Fixpoint evictCount (history : list Sample) : list Sample :=
  match history with
  | [] => []
  | _ :: rest =>
      if (MAX_HISTORY_POINTS <? length history)%nat then evictCount rest
      else history
  end.

(** [while (history.length && timestamp - history[0].time >
    GAZE_HISTORY_MS) history.shift()]. *)
Fixpoint evictAge (timestamp : Z) (history : list Sample) : list Sample :=
  match history with
  | [] => []
  | oldest :: rest =>
      if (GAZE_HISTORY_MS <? timestamp - time oldest)%Z
      then evictAge timestamp rest
      else history
  end.

Definition pushSample (history : list Sample) (rawX rawY : float)
    (timestamp : Z) : list Sample :=
  evictAge timestamp
    (evictCount (history ++ [{| x := rawX; y := rawY; time := timestamp |}])).

(** The backwards loop that collects the fixation window: it walks the
    history from its newest entry and stops at the first one older
    than [FIXATION_WINDOW_MS]. *)
Fixpoint collectRecent (timestamp : Z) (newestFirst : list Sample)
  : list Sample :=
  match newestFirst with
  | [] => []
  | sample :: older =>
      if (FIXATION_WINDOW_MS <? timestamp - time sample)%Z then []
      else sample :: collectRecent timestamp older
  end.

Definition windowOf (timestamp : Z) (history : list Sample) : list Sample :=
  rev (collectRecent timestamp (rev history)).

(** The accumulators of the centroid loop. *)
Record Weighted := { weightSum : float; weightedX : float; weightedY : float }.

Definition weighSample (timestamp : Z) (acc : Weighted) (sample : Sample)
  : Weighted :=
  let age := Z.max 0 (timestamp - time sample) in
  let weight := Math_exp (- of_Z age / 80) in
  {| weightSum := weightSum acc + weight;
     weightedX := weightedX acc + x sample * weight;
     weightedY := weightedY acc + y sample * weight |}.

Definition weighWindow (timestamp : Z) (windowPoints : list Sample)
  : Weighted :=
  fold_left (weighSample timestamp) windowPoints
    {| weightSum := 0; weightedX := 0; weightedY := 0 |}.

Definition dispersionAccumulator (centroidX centroidY : float)
    (windowPoints : list Sample) : float :=
  fold_left
    (fun acc sample =>
       let dx := x sample - centroidX in
       let dy := y sample - centroidY in
       acc + (dx * dx + dy * dy))
    windowPoints 0.

(** The fixation test: the age-weighted centroid when the window has
    enough samples, spans enough time and its RMS dispersion is within
    [FIXATION_MAX_RADIUS_PX]. *)
Definition fixationCentroid (timestamp : Z) (windowPoints : list Sample)
  : option Point :=
  if (MIN_FIXATION_SAMPLES <=? length windowPoints)%nat then
    match head windowPoints, last windowPoints with
    | Some first, Some newest =>
        let fixationDuration := (time newest - time first)%Z in
        if (FIXATION_MIN_DURATION_MS <=? fixationDuration)%Z then
          let w := weighWindow timestamp windowPoints in
          if 0 <? weightSum w then
            let centroidX := weightedX w / weightSum w in
            let centroidY := weightedY w / weightSum w in
            let rmsDispersion :=
              Math_sqrt (dispersionAccumulator centroidX centroidY windowPoints
                         / of_nat (length windowPoints)) in
            if rmsDispersion <=? FIXATION_MAX_RADIUS_PX
            then Some {| px := centroidX; py := centroidY |}
            else None
          else None
        else None
    | _, _ => None
    end
  else None.

Definition stabilityFactor : float := 0.15.

(** The temporal stabilisation of a detected fixation. *)
Definition stabilise (previous : option Sample) (centroid : Point) : Point :=
  match previous with
  | Some prev =>
      {| px := x prev + stabilityFactor * (px centroid - x prev);
         py := y prev + stabilityFactor * (py centroid - y prev) |}
  | None => centroid
  end.

(** The moving-average pass over [history.slice(-5)]. *)
Definition movingAverage (history : list Sample) (safe : Point) : Point :=
  let recentPoints := drop (length history - 5) history in
  let n := length recentPoints in
  if (3 <=? n)%nat then
    (* i = n - 2 down to Math.max(0, n - 4) *)
    let lo := (n - 4)%nat in
    let indices := rev (seq lo (n - 1 - lo)) in
    let '(avgX, avgY, count) :=
      fold_left
        (fun '(avgX, avgY, count) i =>
           match recentPoints !! i with
           | Some pt =>
               let weight := 0.5 / of_nat (n - i) in
               (avgX + x pt * weight, avgY + y pt * weight, count + weight)
           | None => (avgX, avgY, count)
           end)
        indices (px safe, py safe, 1) in
    if 0 <? count then {| px := avgX / count; py := avgY / count |}
    else safe
  else safe.

(** The velocity-adaptive exponential smoothing towards the raw
    sample, entered when no fixation was detected and a previous
    smoothed point exists. *)
Definition saccadeDistance (lastFiltered : Sample) (rawX rawY : float)
  : float :=
  Math_hypot (rawX - x lastFiltered) (rawY - y lastFiltered).

Definition saccadeVelocity (lastFiltered : Sample) (rawX rawY : float)
    (timestamp : Z) : float :=
  let dt := Z.max 16 (timestamp - time lastFiltered) in
  saccadeDistance lastFiltered rawX rawY / of_Z dt * 1000.

Definition isExtremeSaccade (lastFiltered : Sample) (rawX rawY : float)
    (timestamp : Z) : bool :=
  (FIXATION_MAX_RADIUS_PX * 6 <? saccadeDistance lastFiltered rawX rawY)
  && (MAX_VELOCITY_PX_PER_S * 0.8
        <? saccadeVelocity lastFiltered rawX rawY timestamp).

Definition smoothTowards (history : list Sample) (lastFiltered : Sample)
    (rawX rawY : float) (timestamp : Z) : Point :=
  let deltaX := rawX - x lastFiltered in
  let deltaY := rawY - y lastFiltered in
  let distance := saccadeDistance lastFiltered rawX rawY in
  let velocity := saccadeVelocity lastFiltered rawX rawY timestamp in
  let normalizedVelocity :=
    Math_pow (clamp velocity 0 MAX_VELOCITY_PX_PER_S / MAX_VELOCITY_PX_PER_S)
             1.5 in
  let distanceFactor := clamp (distance / 100) 0 1 in
  let alpha :=
    clamp (SMOOTH_MIN_ALPHA
           + (SMOOTH_MAX_ALPHA - SMOOTH_MIN_ALPHA)
             * (0.3 * normalizedVelocity + 0.7 * distanceFactor))
          SMOOTH_MIN_ALPHA SMOOTH_MAX_ALPHA in
  let filteredX := x lastFiltered + alpha * deltaX in
  let filteredY := y lastFiltered + alpha * deltaY in
  let safeX := if Number_isFinite filteredX then filteredX else rawX in
  let safeY := if Number_isFinite filteredY then filteredY else rawY in
  let safe := {| px := safeX; py := safeY |} in
  if MAX_VELOCITY_PX_PER_S * 0.3 <? velocity
  then movingAverage history safe
  else safe.

Definition stamped (p : Point) (timestamp : Z) : Sample :=
  {| x := px p; y := py p; time := timestamp |}.

(** [computeFilteredGazePoint]: the returned point and the two refs
    after the call. *)
Definition computeFilteredGazePoint (st : FilterState)
    (rawX rawY : float) (timestamp : Z) : Point * FilterState :=
  let raw := {| px := rawX; py := rawY |} in
  if negb (Number_isFinite rawX) || negb (Number_isFinite rawY) then
    (raw, st)
  else
    match outlierOf (gazeHistory st) rawX rawY with
    | Some lastPoint =>
        (match smoothedPoint st with
         | Some smoothed => xy smoothed
         | None => xy lastPoint
         end, st)
    | None =>
        let history := pushSample (gazeHistory st) rawX rawY timestamp in
        let windowPoints := windowOf timestamp history in
        let lastFiltered := smoothedPoint st in
        let emit (p : Point) :=
          (p, {| gazeHistory := history;
                 smoothedPoint := Some (stamped p timestamp) |}) in
        let stale :=
          match lastFiltered with
          | Some lf => (GAZE_HISTORY_MS <? timestamp - time lf)%Z
          | None => false
          end in
        if stale then emit raw
        else
          match fixationCentroid timestamp windowPoints with
          | Some centroid => emit (stabilise lastFiltered centroid)
          | None =>
              match lastFiltered with
              | None => emit raw
              | Some lf =>
                  if isExtremeSaccade lf rawX rawY timestamp then emit raw
                  else emit (smoothTowards history lf rawX rawY timestamp)
              end
          end
    end.

(** *** The tracker callback *)

Inductive TrackingStatus :=
| inactive | active | calibrating | reconnecting | denied | error.

Record GazeData := {
  state : Z;
  docX : float; docY : float;
  gtime : float;
  GazeX : float; GazeY : float;
  HeadX : float; HeadY : float; HeadZ : float;
  HeadYaw : float; HeadPitch : float; HeadRoll : float
}.

(** The tracker's payload, [null] or an object with [x] and [y]. *)
Record WebGazerPrediction := { predX : float; predY : float }.

(** The part of the hook's state that [handleGazeData] touches. *)
Record Tracker := {
  isManuallyStopped : bool;
  filter : FilterState;
  gazeData : option GazeData;
  lastResult : option Z;
  status : TrackingStatus
}.

(** [handleGazeData], with [now] the reading of [Date.now()].  The
    second component is the value handed to [setGazeData], if any. *)
Definition handleGazeData (tr : Tracker)
    (prediction : option WebGazerPrediction) (elapsedTime : float)
    (now : Z) : Tracker * option GazeData :=
  match prediction with
  | None => (tr, None)
  | Some prediction =>
      if isManuallyStopped tr then (tr, None)
      else if negb (Number_isFinite (predX prediction))
              || negb (Number_isFinite (predY prediction))
      then (tr, None)
      else
        let timestamp := now in
        let '(filteredPoint, filter') :=
          computeFilteredGazePoint (filter tr)
            (predX prediction) (predY prediction) timestamp in
        let data :=
          {| state := 0;
             docX := px filteredPoint; docY := py filteredPoint;
             gtime := of_Z timestamp - elapsedTime;
             GazeX := px filteredPoint; GazeY := py filteredPoint;
             HeadX := 0; HeadY := 0; HeadZ := 0;
             HeadYaw := 0; HeadPitch := 0; HeadRoll := 0 |} in
        ({| isManuallyStopped := false;
            filter := filter';
            gazeData := Some data;
            lastResult := Some now;
            status :=
              match status tr with
              | denied => denied
              | error => error
              | inactive => inactive
              | _ => active
              end |}, Some data)
  end.

(** One tracker callback: the payload, the elapsed time and the clock. *)
Record Callback := {
  cbPrediction : option WebGazerPrediction;
  cbElapsed : float;
  cbNow : Z
}.

(** The stream of published gaze data over a run of callbacks. *)
Fixpoint published (tr : Tracker) (calls : list Callback) : list GazeData :=
  match calls with
  | [] => []
  | c :: rest =>
      let '(tr', out) :=
        handleGazeData tr (cbPrediction c) (cbElapsed c) (cbNow c) in
      match out with
      | Some d => d :: published tr' rest
      | None => published tr' rest
      end
  end.

(** The filter run over a sequence of raw samples. *)
Fixpoint feed (st : FilterState) (samples : list Sample) : FilterState :=
  match samples with
  | [] => st
  | s :: rest =>
      feed (snd (computeFilteredGazePoint st (x s) (y s) (time s))) rest
  end.

(** A tracker that has just been started: [startTracking] clears the
    manual-stop flag and the smoothing state. *)
Definition started : Tracker :=
  {| isManuallyStopped := false;
     filter := resetSmoothingState;
     gazeData := None;
     lastResult := None;
     status := calibrating |}.

End Filter.

End GazeFilter.

(** ** The selection wheel (component [PhoneticWheel])

    The component is driven by renders and animation frames.  A callback
    runs to completion and its [setState] calls take effect together;
    an effect whose dependencies changed is rerun right after.  The
    readings of [Date.now()] within one callback are one value, [now]. *)

Module Wheel.

Inductive SelectionLevel := group | letter.

#[global] Instance SelectionLevel_eq_dec : EqDecision SelectionLevel.
Proof. solve_decision. Defined.

Inductive languages := english | spanish.

Record ISpecialActions := {
  space_label : string; delete_label : string; submit_label : string
}.

Record ILetterZone := {
  label : string;
  letters : list string;
  hint : option string
}.

Record IAlphabet := {
  zones : list ILetterZone;
  specialActions : ISpecialActions;
  backLabel : string
}.

Definition CENTER_INDEX : nat := 8.
Definition SOUTH_INDEX : nat := 4.
Definition LETTER_ZONE_ORDER : list nat := [7; 0; 1; 2; 3; 5; 6]%nat.
Definition DWELL_TIME : Z := 1500.
Definition COOLDOWN_TIME : Z := 1000.
Definition SNAP_DISTANCE_RATIO : float := 1.1.
Definition EXIT_DISTANCE_RATIO : float := 1.35.

Definition ZONE_NAMES : list string :=
  ["North"; "Northeast"; "East"; "Southeast"; "South"; "Southwest"; "West";
   "Northwest"; "Center"]%string.

#[local] Open Scope string_scope.

Definition zone (l : string) (ls : list string) (h : string) : ILetterZone :=
  {| label := l; letters := ls; hint := Some h |}.

Definition ALPHABETS (language : languages) : IAlphabet :=
  match language with
  | english =>
      {| zones :=
           [ zone "A • B • C • D • 9" ["A"; "B"; "C"; "D"; "9"]
                  "Common starters";
             zone "E • F • G • H • 8" ["E"; "F"; "G"; "H"; "8"]
                  "High-frequency consonants";
             zone "I • J • K • L • 7" ["I"; "J"; "K"; "L"; "7"]
                  "Right-hand letters";
             zone "M • N • O • P • 6" ["M"; "N"; "O"; "P"; "6"]
                  "Mid-word sounds";
             zone "Delete" [] "Remove the last letter";
             zone "Q • R • S • T • 5 • 4" ["Q"; "R"; "S"; "T"; "5"; "4"]
                  "Common endings";
             zone "U • V • W • 0 • 1 • 2 • 3"
                  ["U"; "V"; "W"; "0"; "1"; "2"; "3"]
                  "Vowel sounds & numbers";
             zone "X • Y • Z • . • ? • !" ["X"; "Y"; "Z"; "."; "?"; "!"]
                  "Punctuation & rare letters" ];
         specialActions :=
           {| space_label := "Space"; delete_label := "Delete";
              submit_label := "Submit" |};
         backLabel := "Back" |}
  | spanish =>
      {| zones :=
           [ zone "A • B • C • CH • 9" ["A"; "B"; "C"; "CH"; "9"]
                  "Inicio frecuente";
             zone "D • E • F • G • 8 • 3" ["D"; "E"; "F"; "G"; "8"; "3"]
                  "Consonantes comunes";
             zone "H • I • J • K • 7" ["H"; "I"; "J"; "K"; "7"]
                  "Sonidos suaves";
             zone "L • LL • M • N • Ñ • 6" ["L"; "LL"; "M"; "N"; "Ñ"; "6"]
                  "Letras dobles";
             zone "Borrar" [] "Eliminar la última letra";
             zone "O • P • Q • R • RR • 5 • 4"
                  ["O"; "P"; "Q"; "R"; "RR"; "5"; "4"]
                  "Sílabas comunes";
             zone "S • T • U • V • 0 • 1 • 2"
                  ["S"; "T"; "U"; "V"; "0"; "1"; "2"]
                  "Finales frecuentes";
             zone "W • X • Y • Z • . • ? • !"
                  ["W"; "X"; "Y"; "Z"; "."; "?"; "!"]
                  "Puntuación y letras raras" ];
         specialActions :=
           {| space_label := "Espacio"; delete_label := "Borrar";
              submit_label := "Enviar" |};
         backLabel := "Atrás" |}
  end.

Record RelativePoint := { relX : float; relY : float }.

(** The component's [useState] cells, and whether the animation-frame
    callback registered through [rafRef] is pending. *)
Record State := {
  selectionLevel : SelectionLevel;
  hoveredZone : option nat;
  selectedZone : option nat;
  dwellStartTime : option Z;
  dwellProgress : float;
  relativeGaze : option RelativePoint;
  cooldownUntil : Z;
  rafPending : bool
}.

Definition initial : State :=
  {| selectionLevel := group; hoveredZone := None; selectedZone := None;
     dwellStartTime := None; dwellProgress := 0%float;
     relativeGaze := None; cooldownUntil := 0; rafPending := false |}.

(** The calls a handler makes: to the props [onSelection] and
    [onSubmit], and to its local closure [commit]. *)
Inductive Effect :=
| OnSelection (sound : string)
| OnSubmit
| Commit (zoneIndex : nat) (now : Z).

Definition isCommit (e : Effect) : bool :=
  match e with Commit _ _ => true | _ => false end.

(** The calls that leave the component. *)
Definition callbacks (log : list Effect) : list Effect :=
  List.filter (fun e => negb (isCommit e)) log.

Definition commits (log : list Effect) : list Effect :=
  List.filter isCommit log.

Section Component.
Context {M : MathLib}.
Variable alphabet : IAlphabet.

Definition activeLetters (selectedZone : option nat) : list string :=
  match selectedZone with
  | None => []
  | Some z =>
      match zones alphabet !! z with
      | Some zn => letters zn
      | None => []
      end
  end.

(** The [(value, index)] pairs [Array.prototype.forEach] visits. *)
Definition entries {A} (l : list A) : list (nat * A) :=
  zip (seq 0 (length l)) l.

Definition letterAssignmentsOf (activeLetters : list string)
  : gmap nat string :=
  fold_left
    (fun mapping '(index, sound) =>
       match LETTER_ZONE_ORDER !! index with
       | Some zoneIndex => <[zoneIndex := sound]> mapping
       | None => mapping
       end)
    (entries (take (length LETTER_ZONE_ORDER) activeLetters)) ∅.

Definition letterAssignments (st : State) : gmap nat string :=
  letterAssignmentsOf (activeLetters (selectedZone st)).

Definition resetSelection (st : State) : State :=
  {| selectionLevel := group; hoveredZone := hoveredZone st;
     selectedZone := None; dwellStartTime := dwellStartTime st;
     dwellProgress := dwellProgress st; relativeGaze := relativeGaze st;
     cooldownUntil := cooldownUntil st; rafPending := rafPending st |}.

Definition isZoneInteractive (st : State) (index : nat) : bool :=
  if (index =? CENTER_INDEX)%nat || (index =? SOUTH_INDEX)%nat then true
  else
    match selectionLevel st with
    | group =>
        match zones alphabet !! index with
        | Some zn => (0 <? length (letters zn))%nat
        | None => false
        end
    | letter =>
        match letterAssignments st !! index with
        | Some _ => true
        | None => false
        end
    end.

(** The local closure [commit] of [handleZoneActivation]. *)
Definition commit (st : State) (now : Z) : State :=
  {| selectionLevel := selectionLevel st; hoveredZone := None;
     selectedZone := selectedZone st; dwellStartTime := None;
     dwellProgress := 0%float; relativeGaze := None;
     cooldownUntil := now + COOLDOWN_TIME; rafPending := rafPending st |}.

Definition selectGroup (st : State) (zoneIndex : nat) : State :=
  {| selectionLevel := letter; hoveredZone := hoveredZone st;
     selectedZone := Some zoneIndex; dwellStartTime := dwellStartTime st;
     dwellProgress := dwellProgress st; relativeGaze := relativeGaze st;
     cooldownUntil := cooldownUntil st; rafPending := rafPending st |}.

(** A string in a condition: the empty string is falsy. *)
Definition truthy (s : string) : bool := negb (String.eqb s "").

Definition handleZoneActivation (st : State) (zoneIndex : option nat)
    (now : Z) : State * list Effect :=
  match zoneIndex with
  | None => (st, [])
  | Some zoneIndex =>
      match selectionLevel st with
      | group =>
          if (zoneIndex =? CENTER_INDEX)%nat then
            (commit (resetSelection st) now, [OnSubmit; Commit zoneIndex now])
          else if (zoneIndex =? SOUTH_INDEX)%nat then
            (commit st now, [OnSelection "DELETE"; Commit zoneIndex now])
          else
            match zones alphabet !! zoneIndex with
            | Some zn =>
                if (0 <? length (letters zn))%nat then
                  (commit (selectGroup st zoneIndex) now,
                   [Commit zoneIndex now])
                else (st, [])
            | None => (st, [])
            end
      | letter =>
          if (zoneIndex =? CENTER_INDEX)%nat then
            (commit (resetSelection st) now,
             [OnSelection " "; Commit zoneIndex now])
          else if (zoneIndex =? SOUTH_INDEX)%nat then
            (commit (resetSelection st) now, [Commit zoneIndex now])
          else
            match letterAssignments st !! zoneIndex with
            | Some l =>
                if truthy l then
                  (commit (resetSelection st) now,
                   [OnSelection l; Commit zoneIndex now])
                else (st, [])
            | None => (st, [])
            end
      end
  end.

(** *** The gaze effect *)

(** A [getBoundingClientRect()] result. *)
Record DOMRect := {
  left : float; top : float; right : float; bottom : float;
  width : float; height : float
}.

(** What the gaze effect reads besides the state: the props and the
    layout behind [containerRef] and [zoneRefs]. *)
Record Layout := {
  isTracking : bool;
  gazeX : float;
  gazeY : float;
  containerRef : option DOMRect;
  zoneRefs : list (option DOMRect)
}.

Record Candidate := {
  candidateZone : option nat;
  candidateDistance : float;
  candidateIsInside : bool
}.

#[local] Open Scope float_scope.

(** The body of [interactiveIndices.forEach]. *)
Definition considerZone (ly : Layout) (c : Candidate) (index : nat)
  : Candidate :=
  match zoneRefs ly !! index with
  | Some (Some zoneRect) =>
      let inside :=
        (left zoneRect <=? gazeX ly) && (gazeX ly <=? right zoneRect)
        && (top zoneRect <=? gazeY ly) && (gazeY ly <=? bottom zoneRect) in
      let centerX := left zoneRect + width zoneRect / 2 in
      let centerY := top zoneRect + height zoneRect / 2 in
      let distance := Math_hypot (gazeX ly - centerX) (gazeY ly - centerY) in
      let radius := Math_min (width zoneRect) (height zoneRect) / 2 in
      let normalizedDistance :=
        if 0 <? radius then distance / radius else infinity in
      if inside then
        if negb (candidateIsInside c)
           || (normalizedDistance <? candidateDistance c)
        then {| candidateZone := Some index;
                candidateDistance := normalizedDistance;
                candidateIsInside := true |}
        else c
      else if candidateIsInside c then c
      else if normalizedDistance <? candidateDistance c
      then {| candidateZone := Some index;
              candidateDistance := normalizedDistance;
              candidateIsInside := candidateIsInside c |}
      else c
  | _ => c
  end.

Definition interactiveIndices (st : State) : list nat :=
  List.filter (isZoneInteractive st) (seq 0 (length ZONE_NAMES)).

(** The zone the pointer resolves to: the winner of the scan, dropped
    when it is outside every rectangle and beyond the tolerance. *)
Definition resolveZone (st : State) (ly : Layout) : option nat :=
  let c :=
    fold_left (considerZone ly) (interactiveIndices st)
      {| candidateZone := None; candidateDistance := infinity;
         candidateIsInside := false |} in
  match candidateZone c with
  | Some z =>
      let tolerance :=
        if bool_decide (hoveredZone st = Some z) then EXIT_DISTANCE_RATIO
        else SNAP_DISTANCE_RATIO in
      if negb (candidateIsInside c) && (tolerance <? candidateDistance c)
      then None
      else Some z
  | None => None
  end.

Definition setHover (st : State) (hovered : option nat)
    (dwellStart : option Z) (progress : float)
    (gaze : option RelativePoint) : State :=
  {| selectionLevel := selectionLevel st; hoveredZone := hovered;
     selectedZone := selectedZone st; dwellStartTime := dwellStart;
     dwellProgress := progress; relativeGaze := gaze;
     cooldownUntil := cooldownUntil st; rafPending := rafPending st |}.

(** The early returns of the gaze effect. *)
Definition clearHover (st : State) : State := setHover st None None 0 None.

(** The pointer relative to the container, and the test that it left it. *)
Definition relativeTo (containerRect : DOMRect) (ly : Layout) : RelativePoint :=
  {| relX := gazeX ly - left containerRect;
     relY := gazeY ly - top containerRect |}.

Definition outsideContainer (containerRect : DOMRect) (ly : Layout) : bool :=
  let rel := relativeTo containerRect ly in
  (relX rel <? 0) || (relY rel <? 0) || (width containerRect <? relX rel)
  || (height containerRect <? relY rel).

(** The first [useEffect]; [now] is the reading of [Date.now()]. *)
Definition gazeEffect (st : State) (ly : Layout) (now : Z) : State :=
  if negb (isTracking ly) then clearHover st
  else
    match containerRef ly with
    | None => clearHover st
    | Some containerRect =>
        if (now <? cooldownUntil st)%Z then clearHover st
        else if outsideContainer containerRect ly then clearHover st
        else
          let gaze := Some (relativeTo containerRect ly) in
          match resolveZone st ly with
          | Some z =>
              if bool_decide (hoveredZone st = Some z) then
                match dwellStartTime st with
                | None =>
                    setHover st (hoveredZone st) (Some now)
                      (dwellProgress st) gaze
                | Some _ =>
                    setHover st (hoveredZone st) (dwellStartTime st)
                      (dwellProgress st) gaze
                end
              else setHover st (Some z) (Some now) 0 gaze
          | None => setHover st None None 0 gaze
          end
    end.

(** *** The dwell effect *)

Definition setDwell (st : State) (progress : float) (pending : bool)
  : State :=
  {| selectionLevel := selectionLevel st; hoveredZone := hoveredZone st;
     selectedZone := selectedZone st; dwellStartTime := dwellStartTime st;
     dwellProgress := progress; relativeGaze := relativeGaze st;
     cooldownUntil := cooldownUntil st; rafPending := pending |}.

(** The second [useEffect] being (re)run: its cleanup cancels the
    pending frame, its body requests one while a zone is hovered. *)
Definition dwellEffect (st : State) : State :=
  match hoveredZone st, dwellStartTime st with
  | Some _, Some _ => setDwell st (dwellProgress st) true
  | _, _ => setDwell st 0 false
  end.

(** React reruns the dwell effect after a render in which one of its
    dependencies changed: [cooldownUntil], [dwellStartTime],
    [hoveredZone], or [handleZoneActivation], which is rebuilt when
    [selectionLevel] or [letterAssignments] change. *)
Definition dwellDepsChanged (old new : State) : bool :=
  negb (bool_decide (cooldownUntil old = cooldownUntil new
                     /\ dwellStartTime old = dwellStartTime new
                     /\ hoveredZone old = hoveredZone new))
  || negb (bool_decide (selectionLevel old = selectionLevel new
                        /\ selectedZone old = selectedZone new)).

Definition rerender (old new : State) : State :=
  if dwellDepsChanged old new then dwellEffect new else new.

(** The animation-frame callback [tick], run with the frame consumed. *)
Definition tick (st : State) (now : Z) : State * list Effect :=
  match hoveredZone st, dwellStartTime st with
  | Some hovered, Some dwellStart =>
      if (now <? cooldownUntil st)%Z then (setDwell st 0 false, [])
      else
        let elapsed := (now - dwellStart)%Z in
        if (DWELL_TIME <=? elapsed)%Z then
          handleZoneActivation (setDwell st (dwellProgress st) false)
            (Some hovered) now
        else
          (setDwell st (Math_min 1 (of_Z elapsed / of_Z DWELL_TIME)) true,
           [])
  | _, _ => (setDwell st (dwellProgress st) false, [])
  end.

(** What drives the component: a render that reruns the gaze effect,
    an animation frame, or a render that reruns the dwell effect
    because [handleZoneActivation] got a new identity. *)
Inductive Action :=
| Gaze (ly : Layout) (now : Z)
| Frame (now : Z)
| Rerender.

Definition step (st : State) (a : Action) : State * list Effect :=
  match a with
  | Gaze ly now => (rerender st (gazeEffect st ly now), [])
  | Frame now =>
      if rafPending st then
        let '(st', log) := tick st now in (rerender st st', log)
      else (st, [])
  | Rerender => (dwellEffect st, [])
  end.

Fixpoint run (st : State) (actions : list Action) : State * list Effect :=
  match actions with
  | [] => (st, [])
  | a :: rest =>
      let '(st1, log1) := step st a in
      let '(st2, log2) := run st1 rest in
      (st2, (log1 ++ log2)%list)
  end.

(** The clock reading of an action, when it makes one. *)
Definition clock (a : Action) : option Z :=
  match a with
  | Gaze _ now => Some now
  | Frame now => Some now
  | Rerender => None
  end.

End Component.

End Wheel.

(** * Properties of the gaze filter *)

Section GazeFilterFacts.
Import GazeFilter.
Context {M : MathLib}.

#[local] Open Scope float_scope.

Definition rawPoint (rawX rawY : float) : Point := {| px := rawX; py := rawY |}.

Definition isFiniteSample (rawX rawY : float) : bool :=
  Number_isFinite rawX && Number_isFinite rawY.

(** What the filter returns on a rejected sample. *)
Definition fallbackPoint (st : FilterState) (lastPoint : Sample) : Point :=
  match smoothedPoint st with
  | Some smoothed => xy smoothed
  | None => xy lastPoint
  end.

Lemma guard_negb (rawX rawY : float) :
  negb (Number_isFinite rawX) || negb (Number_isFinite rawY)
  = negb (isFiniteSample rawX rawY).
Proof.
  unfold isFiniteSample.
  destruct (Number_isFinite rawX), (Number_isFinite rawY); reflexivity.
Qed.

(** The filter on a non-finite sample: the pass-through guard. *)
Lemma compute_not_finite (st : FilterState) (rawX rawY : float) (t : Z) :
  isFiniteSample rawX rawY = false ->
  computeFilteredGazePoint st rawX rawY t = (rawPoint rawX rawY, st).
Proof.
  intros Hf. unfold computeFilteredGazePoint.
  rewrite guard_negb, Hf. reflexivity.
Qed.

(** The filter on a finite sample beyond the outlier threshold. *)
Lemma compute_outlier (st : FilterState) (rawX rawY : float) (t : Z)
    (lastPoint : Sample) :
  isFiniteSample rawX rawY = true ->
  outlierOf (gazeHistory st) rawX rawY = Some lastPoint ->
  computeFilteredGazePoint st rawX rawY t = (fallbackPoint st lastPoint, st).
Proof.
  intros Hf Ho. unfold computeFilteredGazePoint.
  rewrite guard_negb, Hf, Ho. reflexivity.
Qed.

(** The filter on an accepted sample, after the history was updated. *)
Definition accepted (st : FilterState) (rawX rawY : float) : bool :=
  isFiniteSample rawX rawY
  && match outlierOf (gazeHistory st) rawX rawY with
     | Some _ => false
     | None => true
     end.

Definition isStale (st : FilterState) (t : Z) : bool :=
  match smoothedPoint st with
  | Some lf => (GAZE_HISTORY_MS <? t - time lf)%Z
  | None => false
  end.

Definition emitted (st : FilterState) (rawX rawY : float) (t : Z) (p : Point)
  : Point * FilterState :=
  (p, {| gazeHistory := pushSample (gazeHistory st) rawX rawY t;
         smoothedPoint := Some (stamped p t) |}).

Lemma compute_accepted (st : FilterState) (rawX rawY : float) (t : Z) :
  accepted st rawX rawY = true ->
  computeFilteredGazePoint st rawX rawY t
  = emitted st rawX rawY t
      (if isStale st t then rawPoint rawX rawY
       else
         match fixationCentroid t
                 (windowOf t (pushSample (gazeHistory st) rawX rawY t)) with
         | Some centroid => stabilise (smoothedPoint st) centroid
         | None =>
             match smoothedPoint st with
             | None => rawPoint rawX rawY
             | Some lf =>
                 if isExtremeSaccade lf rawX rawY t then rawPoint rawX rawY
                 else smoothTowards
                        (pushSample (gazeHistory st) rawX rawY t) lf rawX rawY t
             end
         end).
Proof.
  unfold accepted. intros [Hf Ho]%andb_true_iff.
  unfold computeFilteredGazePoint, emitted, isStale.
  rewrite guard_negb, Hf. cbn [negb].
  destruct (outlierOf (gazeHistory st) rawX rawY); [discriminate|].
  destruct (smoothedPoint st) as [lf|].
  - destruct (GAZE_HISTORY_MS <? t - time lf)%Z; [reflexivity|].
    destruct (fixationCentroid _ _); [reflexivity|].
    destruct (isExtremeSaccade _ _ _ _); reflexivity.
  - destruct (fixationCentroid _ _); reflexivity.
Qed.


(** C8: every call returns a point, and afterwards the smoothed-point
    record holds the coordinates of that point and the sample's
    timestamp, except when the sample was passed through by the
    non-finite guard or rejected as an outlier: then both refs are as
    before the call. *)
Theorem smoothed_record_follows_output (st : FilterState)
    (rawX rawY : float) (t : Z) :
  let r := computeFilteredGazePoint st rawX rawY t in
  if negb (Number_isFinite rawX) || negb (Number_isFinite rawY)
  then snd r = st
  else
    match outlierOf (gazeHistory st) rawX rawY with
    | Some _ => snd r = st
    | None =>
        smoothedPoint (snd r)
        = Some {| x := px (fst r); y := py (fst r); time := t |}
    end.
Proof.
  cbv zeta. rewrite guard_negb.
  destruct (isFiniteSample rawX rawY) eqn:Hf; cbn [negb].
  - destruct (outlierOf (gazeHistory st) rawX rawY) as [lp|] eqn:Ho.
    + rewrite (compute_outlier _ _ _ _ lp Hf Ho). reflexivity.
    + assert (Ha : accepted st rawX rawY = true)
        by (unfold accepted; rewrite Hf, Ho; reflexivity).
      rewrite (compute_accepted _ _ _ _ Ha). reflexivity.
  - rewrite (compute_not_finite _ _ _ _ Hf). reflexivity.
Qed.


(** C1, amended: with a previous smoothed point, a sample that is not
    rejected as an outlier and on which no fixation is declared, whose
    distance from the previous smoothed point exceeds
    6 * [FIXATION_MAX_RADIUS_PX] at a velocity above
    0.8 * [MAX_VELOCITY_PX_PER_S], is returned as it is (a snap); when
    it is finite the smoothed-point record becomes that raw point. *)
Theorem extreme_saccade_snaps (st : FilterState) (lastFiltered : Sample)
    (rawX rawY : float) (t : Z) :
  smoothedPoint st = Some lastFiltered ->
  (FIXATION_MAX_RADIUS_PX * 6
     <? saccadeDistance lastFiltered rawX rawY) = true ->
  (MAX_VELOCITY_PX_PER_S * 0.8
     <? saccadeVelocity lastFiltered rawX rawY t) = true ->
  outlierOf (gazeHistory st) rawX rawY = None ->
  fixationCentroid t (windowOf t (pushSample (gazeHistory st) rawX rawY t))
  = None ->
  fst (computeFilteredGazePoint st rawX rawY t) = rawPoint rawX rawY
  /\ (isFiniteSample rawX rawY = true ->
      smoothedPoint (snd (computeFilteredGazePoint st rawX rawY t))
      = Some {| x := rawX; y := rawY; time := t |}).
Proof.
  intros Hs Hd Hv Ho Hfix.
  destruct (isFiniteSample rawX rawY) eqn:Hf.
  - assert (Ha : accepted st rawX rawY = true)
      by (unfold accepted; rewrite Hf, Ho; reflexivity).
    rewrite (compute_accepted _ _ _ _ Ha), Hfix, Hs.
    unfold isExtremeSaccade. rewrite Hd, Hv. cbn [andb].
    destruct (isStale st t); split; reflexivity.
  - rewrite (compute_not_finite _ _ _ _ Hf). split; [reflexivity|discriminate].
Qed.

(** C3, amended: when a fixation is declared on an accepted sample and a
    previous smoothed point exists, the output is
    previous + 0.15 * (centroid - previous): the previous smoothed point
    blended with the age-weighted centroid by the fixed stability
    factor, which is below one half, so the blend is weighted toward the
    previous smoothed point. *)
Theorem fixation_output_is_stabilised (st : FilterState) (prev : Sample)
    (rawX rawY : float) (t : Z) (centroid : Point) :
  accepted st rawX rawY = true ->
  smoothedPoint st = Some prev ->
  isStale st t = false ->
  fixationCentroid t (windowOf t (pushSample (gazeHistory st) rawX rawY t))
  = Some centroid ->
  let out :=
    {| px := x prev + 0.15 * (px centroid - x prev);
       py := y prev + 0.15 * (py centroid - y prev) |} in
  computeFilteredGazePoint st rawX rawY t = emitted st rawX rawY t out
  /\ (stabilityFactor <? 0.5) = true.
Proof.
  intros Ha Hs Hst Hfix. cbv zeta.
  rewrite (compute_accepted _ _ _ _ Ha), Hst, Hfix, Hs.
  split; reflexivity.
Qed.

(** The first finite sample of a session is returned as it is and seeds
    both the history and the smoothed-point record; a non-finite one
    leaves the fresh state as it is. *)
Theorem first_sample_seeds (rawX rawY : float) (t : Z) :
  computeFilteredGazePoint resetSmoothingState rawX rawY t
  = if isFiniteSample rawX rawY
    then (rawPoint rawX rawY,
          {| gazeHistory := [{| x := rawX; y := rawY; time := t |}];
             smoothedPoint := Some {| x := rawX; y := rawY; time := t |} |})
    else (rawPoint rawX rawY, resetSmoothingState).
Proof.
  destruct (isFiniteSample rawX rawY) eqn:Hf.
  - assert (Ha : accepted resetSmoothingState rawX rawY = true)
      by (unfold accepted; rewrite Hf; reflexivity).
    rewrite (compute_accepted _ _ _ _ Ha).
    set (s := {| x := rawX; y := rawY; time := t |}).
    assert (Hpush : pushSample [] rawX rawY t = [s]).
    { unfold pushSample. cbn. rewrite Z.sub_diag. reflexivity. }
    assert (Hwin : windowOf t [s] = [s]).
    { unfold windowOf. cbn. rewrite Z.sub_diag. reflexivity. }
    unfold emitted, isStale.
    cbn [gazeHistory smoothedPoint resetSmoothingState].
    rewrite Hpush, Hwin. reflexivity.
  - apply compute_not_finite. exact Hf.
Qed.

End GazeFilterFacts.

(** ** The history buffer stays bounded *)

Section HistoryBounds.
Import GazeFilter.
Context {M : MathLib}.

Definition byTime (a b : Sample) : Prop := time a <= time b.

(** The timestamp of the latest accepted sample over a run of the
    filter, [latest] being the one before the run. *)
Fixpoint latestAccepted (st : FilterState) (samples : list Sample)
    (latest : option Z) : option Z :=
  match samples with
  | [] => latest
  | s :: rest =>
      latestAccepted
        (snd (computeFilteredGazePoint st (x s) (y s) (time s))) rest
        (if accepted st (x s) (y s) then Some (time s) else latest)
  end.

Lemma evictCount_length (history : list Sample) :
  (length (evictCount history) <= MAX_HISTORY_POINTS)%nat.
Proof.
  induction history as [|s rest IH]; cbn [evictCount].
  - apply Nat.le_0_l.
  - destruct (MAX_HISTORY_POINTS <? length (s :: rest))%nat eqn:Hlt.
    + exact IH.
    + apply Nat.ltb_ge in Hlt. exact Hlt.
Qed.

Lemma evictCount_suffix (history : list Sample) :
  evictCount history `suffix_of` history.
Proof.
  induction history as [|s rest IH]; cbn [evictCount].
  - reflexivity.
  - destruct (MAX_HISTORY_POINTS <? length (s :: rest))%nat.
    + by apply suffix_cons_r.
    + reflexivity.
Qed.

Lemma evictCount_last (history : list Sample) (s : Sample) :
  last history = Some s -> last (evictCount history) = Some s.
Proof.
  induction history as [|a rest IH]; [done|].
  intros Hl. cbn [evictCount].
  destruct (MAX_HISTORY_POINTS <? length (a :: rest))%nat eqn:Hlt; [|done].
  apply IH. destruct rest as [|b rest']; [|done].
  apply Nat.ltb_lt in Hlt. unfold MAX_HISTORY_POINTS in Hlt. cbn in Hlt. lia.
Qed.

Lemma evictAge_suffix (t : Z) (history : list Sample) :
  evictAge t history `suffix_of` history.
Proof.
  induction history as [|s rest IH]; cbn [evictAge].
  - reflexivity.
  - destruct (GAZE_HISTORY_MS <? t - time s).
    + by apply suffix_cons_r.
    + reflexivity.
Qed.

Lemma evictAge_head (t : Z) (history : list Sample) (oldest : Sample) :
  head (evictAge t history) = Some oldest ->
  t - time oldest <= GAZE_HISTORY_MS.
Proof.
  induction history as [|s rest IH]; cbn [evictAge]; [done|].
  destruct (GAZE_HISTORY_MS <? t - time s) eqn:Hlt; [exact IH|].
  intros [= <-]. by apply Z.ltb_ge in Hlt.
Qed.

Lemma evictAge_last (t : Z) (history : list Sample) (s : Sample) :
  last history = Some s -> time s = t ->
  last (evictAge t history) = Some s.
Proof.
  intros Hl Ht. induction history as [|a rest IH]; [done|].
  cbn [evictAge].
  destruct (GAZE_HISTORY_MS <? t - time a) eqn:Hlt; [|done].
  apply IH. destruct rest as [|b rest']; [|done].
  injection Hl as ->. apply Z.ltb_lt in Hlt.
  unfold GAZE_HISTORY_MS in Hlt. lia.
Qed.

Lemma suffix_length_le (l1 l2 : list Sample) :
  l1 `suffix_of` l2 -> (length l1 <= length l2)%nat.
Proof. intros [k ->]. rewrite length_app. lia. Qed.

Lemma suffix_StronglySorted (l1 l2 : list Sample) :
  l1 `suffix_of` l2 -> StronglySorted byTime l2 -> StronglySorted byTime l1.
Proof.
  intros [k ->]. induction k as [|a k IH]; [done|].
  intros Hs. apply IH. by apply StronglySorted_inv in Hs as [? _].
Qed.

Lemma suffix_Forall (P : Sample -> Prop) (l1 l2 : list Sample) :
  l1 `suffix_of` l2 -> Forall P l2 -> Forall P l1.
Proof. intros [k ->] H. by apply Forall_app in H as [_ ?]. Qed.

Lemma StronglySorted_snoc (history : list Sample) (s : Sample) :
  StronglySorted byTime history ->
  Forall (fun e => time e <= time s) history ->
  StronglySorted byTime (history ++ [s]).
Proof.
  induction history as [|a rest IH]; intros Hs Hf; cbn.
  - repeat constructor.
  - apply StronglySorted_inv in Hs as [Hs Ha].
    apply Forall_cons in Hf as [Hat Hf].
    constructor; [by apply IH|].
    apply Forall_app. split; [exact Ha|]. by repeat constructor.
Qed.

(** In a history sorted by time, the bound on the oldest entry is a
    bound on every entry. *)
Lemma sorted_head_bound (history : list Sample) (lo : Z) :
  StronglySorted byTime history ->
  (forall oldest, head history = Some oldest -> lo <= time oldest) ->
  Forall (fun e => lo <= time e) history.
Proof.
  destruct history as [|a rest]; [constructor|].
  intros Hs Hh. apply StronglySorted_inv in Hs as [_ Ha].
  pose proof (Hh a eq_refl) as Hlo.
  constructor; [exact Hlo|].
  eapply Forall_impl; [exact Ha|]. unfold byTime. intros e He. cbn in He. lia.
Qed.

(** The invariant of the history buffer, [latest] being the timestamp
    of the latest accepted sample. *)
Definition historyInv (history : list Sample) (latest : option Z) : Prop :=
  (length history <= MAX_HISTORY_POINTS)%nat
  /\ StronglySorted byTime history
  /\ match latest with
     | Some t =>
         (exists s, last history = Some s /\ time s = t)
         /\ Forall (fun e => 0 <= t - time e <= GAZE_HISTORY_MS) history
     | None => history = []
     end.

Lemma pushSample_inv (history : list Sample) (latest : option Z)
    (rawX rawY : float) (t : Z) :
  historyInv history latest ->
  (forall t0, latest = Some t0 -> t0 <= t) ->
  historyInv (pushSample history rawX rawY t) (Some t).
Proof.
  intros (Hlen & Hsorted & Hlatest) Hmono.
  set (s := {| x := rawX; y := rawY; time := t |}).
  assert (Hle : Forall (fun e => time e <= time s) history).
  { destruct latest as [t0|].
    - destruct Hlatest as [_ Hall]. specialize (Hmono t0 eq_refl).
      eapply Forall_impl; [exact Hall|]. cbn. intros e He. lia.
    - subst history. constructor. }
  assert (Hs1 : StronglySorted byTime (history ++ [s]))
    by (by apply StronglySorted_snoc).
  assert (Hsuf : pushSample history rawX rawY t `suffix_of` history ++ [s]).
  { unfold pushSample. fold s.
    etrans; [apply evictAge_suffix|apply evictCount_suffix]. }
  assert (Hs2 : StronglySorted byTime (pushSample history rawX rawY t))
    by (eapply suffix_StronglySorted; eauto).
  split; [|split; [exact Hs2|split]].
  - unfold pushSample. fold s.
    etrans; [apply suffix_length_le, evictAge_suffix|apply evictCount_length].
  - exists s. split; [|reflexivity].
    unfold pushSample. fold s. apply evictAge_last; [|reflexivity].
    apply evictCount_last. by rewrite last_snoc.
  - assert (Hup : Forall (fun e => time e <= t)
                    (pushSample history rawX rawY t)).
    { eapply suffix_Forall; [exact Hsuf|].
      apply Forall_app. split; [exact Hle|]. repeat constructor. cbn. lia. }
    assert (Hlo : Forall (fun e => t - GAZE_HISTORY_MS <= time e)
                    (pushSample history rawX rawY t)).
    { apply sorted_head_bound; [exact Hs2|].
      intros oldest Ho. apply evictAge_head in Ho. lia. }
    rewrite Forall_forall in Hup, Hlo. apply Forall_forall.
    intros e He. specialize (Hup e He). specialize (Hlo e He). lia.
Qed.

Lemma compute_history (st : FilterState) (rawX rawY : float) (t : Z) :
  gazeHistory (snd (computeFilteredGazePoint st rawX rawY t))
  = if accepted st rawX rawY
    then pushSample (gazeHistory st) rawX rawY t
    else gazeHistory st.
Proof.
  destruct (accepted st rawX rawY) eqn:Ha.
  - rewrite (compute_accepted _ _ _ _ Ha). reflexivity.
  - unfold accepted in Ha.
    destruct (isFiniteSample rawX rawY) eqn:Hf.
    + destruct (outlierOf (gazeHistory st) rawX rawY) as [lp|] eqn:Ho;
        [|discriminate].
      rewrite (compute_outlier _ _ _ _ lp Hf Ho). reflexivity.
    + rewrite (compute_not_finite _ _ _ _ Hf). reflexivity.
Qed.

Lemma feed_inv (samples : list Sample) :
  forall (st : FilterState) (latest : option Z),
    historyInv (gazeHistory st) latest ->
    StronglySorted byTime samples ->
    (forall t0, latest = Some t0 ->
                Forall (fun s => t0 <= time s) samples) ->
    historyInv (gazeHistory (feed st samples))
               (latestAccepted st samples latest).
Proof.
  induction samples as [|s rest IH]; intros st latest Hinv Hsorted Hlate;
    [exact Hinv|].
  cbn [feed latestAccepted].
  apply StronglySorted_inv in Hsorted as [Hsorted Hs].
  apply IH; [|exact Hsorted|].
  - rewrite compute_history.
    destruct (accepted st (x s) (y s)); [|exact Hinv].
    apply pushSample_inv with (latest := latest); [exact Hinv|].
    intros t0 Ht0. specialize (Hlate t0 Ht0).
    by apply Forall_cons in Hlate as [? _].
  - intros t0 Ht0.
    destruct (accepted st (x s) (y s)).
    + injection Ht0 as <-. exact Hs.
    + specialize (Hlate t0 Ht0). apply Forall_cons in Hlate as [Hle _].
      eapply Forall_impl; [exact Hs|]. unfold byTime. intros e He.
      cbn in He. lia.
Qed.

(** C5: over any run of the filter from a fresh session on samples with
    non-decreasing timestamps, the history holds at most
    [MAX_HISTORY_POINTS] entries, and every entry of it, the oldest
    included, is at most [GAZE_HISTORY_MS] older than the latest
    accepted sample (the history is empty while none was accepted). *)
Theorem history_stays_bounded (samples : list Sample) :
  Sorted byTime samples ->
  let history := gazeHistory (feed resetSmoothingState samples) in
  (length history <= MAX_HISTORY_POINTS)%nat
  /\ match latestAccepted resetSmoothingState samples None with
     | Some latest =>
         Forall (fun e => 0 <= latest - time e <= GAZE_HISTORY_MS) history
         /\ (forall oldest, head history = Some oldest ->
                            latest - time oldest <= GAZE_HISTORY_MS)
     | None => history = []
     end.
Proof.
  intros Hsorted. cbv zeta.
  assert (Hss : StronglySorted byTime samples).
  { apply Sorted_StronglySorted; [|exact Hsorted].
    intros a b c. unfold byTime. lia. }
  pose proof (feed_inv samples resetSmoothingState None) as Hinv.
  destruct Hinv as (Hlen & _ & Hlatest); [|exact Hss|done|].
  { split; [cbn; unfold MAX_HISTORY_POINTS; lia|].
    split; [constructor|reflexivity]. }
  split; [exact Hlen|].
  destruct (latestAccepted resetSmoothingState samples None) as [latest|];
    [|exact Hlatest].
  destruct Hlatest as [_ Hall]. split; [exact Hall|].
  intros oldest Ho.
  destruct (gazeHistory (feed resetSmoothingState samples)) as [|a rest];
    [done|].
  injection Ho as <-. apply Forall_cons in Hall as [Ha _]. lia.
Qed.

End HistoryBounds.

(** ** A long pause restarts the filter *)

Section PauseFacts.
Import GazeFilter.
Context {M : MathLib}.

Lemma compute_rejected (st : FilterState) (rawX rawY : float) (t : Z) :
  accepted st rawX rawY = false ->
  snd (computeFilteredGazePoint st rawX rawY t) = st.
Proof.
  unfold accepted. intros Ha.
  destruct (isFiniteSample rawX rawY) eqn:Hf.
  - destruct (outlierOf (gazeHistory st) rawX rawY) as [lp|] eqn:Ho;
      [|discriminate].
    by rewrite (compute_outlier _ _ _ _ lp Hf Ho).
  - by rewrite (compute_not_finite _ _ _ _ Hf).
Qed.

(** The smoothed-point record carries the timestamp of the latest
    accepted sample. *)
Lemma feed_smoothed (samples : list Sample) :
  forall (st : FilterState) (latest : option Z),
    (forall l, latest = Some l ->
               exists lf, smoothedPoint st = Some lf /\ time lf = l) ->
    forall l, latestAccepted st samples latest = Some l ->
              exists lf, smoothedPoint (feed st samples) = Some lf
                         /\ time lf = l.
Proof.
  induction samples as [|s rest IH]; intros st latest Hinv l Hl;
    [by apply Hinv|].
  cbn [feed latestAccepted] in *.
  eapply IH; [|exact Hl].
  intros l0 Hl0.
  destruct (accepted st (x s) (y s)) eqn:Ha.
  - injection Hl0 as <-.
    rewrite (compute_accepted _ _ _ _ Ha). unfold emitted. cbn.
    by eexists.
  - rewrite (compute_rejected _ _ _ _ Ha). by apply Hinv.
Qed.

Lemma evictCount_snoc (history : list Sample) (s : Sample) :
  exists kept, evictCount (history ++ [s]) = kept ++ [s]
               /\ kept `suffix_of` history.
Proof.
  induction history as [|a rest IH].
  - exists []. split; [|done]. cbn.
    unfold MAX_HISTORY_POINTS. reflexivity.
  - cbn [app evictCount].
    destruct (MAX_HISTORY_POINTS <? length (a :: rest ++ [s]))%nat.
    + destruct IH as (kept & -> & Hk). exists kept.
      split; [done|]. by apply suffix_cons_r.
    + by exists (a :: rest).
Qed.

Lemma evictAge_all_old (t : Z) (old : list Sample) (s : Sample) :
  Forall (fun e => GAZE_HISTORY_MS < t - time e) old ->
  time s = t ->
  evictAge t (old ++ [s]) = [s].
Proof.
  intros Hold Hs. induction Hold as [|a rest Ha _ IH]; cbn [app evictAge].
  - rewrite Hs, Z.sub_diag. reflexivity.
  - assert ((GAZE_HISTORY_MS <? t - time a) = true) as -> by lia.
    exact IH.
Qed.

(** After a pause every entry of the history is too old and only the
    new sample stays. *)
Lemma pushSample_after_pause (history : list Sample) (rawX rawY : float)
    (t : Z) :
  Forall (fun e => GAZE_HISTORY_MS < t - time e) history ->
  pushSample history rawX rawY t = [{| x := rawX; y := rawY; time := t |}].
Proof.
  intros Hold. unfold pushSample.
  destruct (evictCount_snoc history {| x := rawX; y := rawY; time := t |})
    as (kept & -> & Hk).
  apply evictAge_all_old; [|reflexivity].
  by apply (suffix_Forall _ kept history).
Qed.

(** In a session fed with samples in time order, an accepted sample
    that comes more than [GAZE_HISTORY_MS] after the latest accepted one
    restarts the filter: it is returned as it is, and the history and
    the smoothed-point record hold that sample alone, as after the first
    sample of a session. *)
Theorem long_pause_restarts_filter (samples : list Sample) (latest : Z)
    (rawX rawY : float) (t : Z) :
  Sorted byTime samples ->
  latestAccepted resetSmoothingState samples None = Some latest ->
  GAZE_HISTORY_MS < t - latest ->
  isFiniteSample rawX rawY = true ->
  outlierOf (gazeHistory (feed resetSmoothingState samples)) rawX rawY = None ->
  computeFilteredGazePoint (feed resetSmoothingState samples) rawX rawY t
  = ({| px := rawX; py := rawY |},
     {| gazeHistory := [{| x := rawX; y := rawY; time := t |}];
        smoothedPoint := Some {| x := rawX; y := rawY; time := t |} |}).
Proof.
  intros Hsorted Hlatest Hpause Hf Ho.
  set (st := feed resetSmoothingState samples) in *.
  assert (Hss : StronglySorted byTime samples).
  { apply Sorted_StronglySorted; [|exact Hsorted].
    intros a b c. unfold byTime. lia. }
  pose proof (feed_inv samples resetSmoothingState None) as Hinv.
  destruct Hinv as (_ & _ & Hhist); [|exact Hss|done|].
  { split; [cbn; unfold MAX_HISTORY_POINTS; lia|].
    split; [constructor|reflexivity]. }
  fold st in Hhist. rewrite Hlatest in Hhist. destruct Hhist as [_ Hall].
  destruct (feed_smoothed samples resetSmoothingState None
              ltac:(done) latest Hlatest) as (lf & Hlf & Htime).
  fold st in Hlf.
  assert (Ha : accepted st rawX rawY = true)
    by (unfold accepted; by rewrite Hf, Ho).
  rewrite (compute_accepted _ _ _ _ Ha).
  assert (Hstale : isStale st t = true).
  { unfold isStale. rewrite Hlf, Htime. lia. }
  rewrite Hstale. unfold emitted.
  rewrite pushSample_after_pause; [reflexivity|].
  eapply Forall_impl; [exact Hall|]. cbn. intros e He. lia.
Qed.

End PauseFacts.

(** * The gaze filter on concrete inputs

    Runs of the model with the reference [MathLib]. *)

Section GazeFilterRuns.
Import GazeFilter.
#[local] Existing Instance RefMath.
#[local] Open Scope float_scope.

Definition at00 : Sample := {| x := 0; y := 0; time := 0 |}.

(** The filter after one sample at the origin. *)
Definition afterOrigin : FilterState :=
  snd (computeFilteredGazePoint resetSmoothingState 0 0 0).

(** A sweep to the right, 120 px every 220 ms. *)
Definition sweepSample (k : nat) : Sample :=
  {| x := of_Z (120 * Z.of_nat k); y := 0; time := 220 * Z.of_nat k |}.

Definition afterSweep : FilterState :=
  feed resetSmoothingState (map sweepSample (seq 0 5)).

Definition sweepSmoothed : Sample :=
  default at00 (smoothedPoint afterSweep).

(** Seven samples resting at (100, 100), 50 ms apart. *)
Definition restSample (k : nat) : Sample :=
  {| x := 100; y := 100; time := 50 * Z.of_nat k |}.

Definition restRun : list Sample := map restSample (seq 0 7).

Definition afterRest : FilterState := feed resetSmoothingState restRun.

Definition restSmoothed : Sample := {| x := 100; y := 100; time := 300 |}.

Definition restCentroid : Point :=
  default {| px := 0; py := 0 |}
    (fixationCentroid 350
       (windowOf 350 (pushSample (gazeHistory afterRest) 140 100 350))).

(** Three tracker callbacks at a huge, finite abscissa. *)
Definition hugeCalls : list Callback :=
  [ {| cbPrediction := Some {| predX := 1.5e308; predY := 0 |};
       cbElapsed := 0; cbNow := 0 |};
    {| cbPrediction := Some {| predX := 1.5e308; predY := 100 |};
       cbElapsed := 16; cbNow := 16 |};
    {| cbPrediction := Some {| predX := 1.5e308; predY := 200 |};
       cbElapsed := 32; cbNow := 32 |} ].


(** The sixth sample of the sweep is an extreme saccade and snaps. *)
Lemma extreme_saccade_snaps_example :
  fst (computeFilteredGazePoint afterSweep 600 0 1100) = rawPoint 600 0
  /\ (isFiniteSample 600 0 = true ->
      smoothedPoint (snd (computeFilteredGazePoint afterSweep 600 0 1100))
      = Some {| x := 600; y := 0; time := 1100 |}).
Proof.
  apply (extreme_saccade_snaps afterSweep sweepSmoothed 600 0 1100);
    vm_compute; reflexivity.
Defined.

(** C1 as stated fails: right after a sample at the origin, a jump of
    300 px in 16 ms is an extreme saccade by distance and velocity, but it
    is rejected as an outlier and the previous smoothed point is returned,
    not the raw point. *)
Lemma single_jump_is_rejected :
  smoothedPoint afterOrigin = Some at00
  /\ (FIXATION_MAX_RADIUS_PX * 6 <? saccadeDistance at00 300 0) = true
  /\ (MAX_VELOCITY_PX_PER_S * 0.8 <? saccadeVelocity at00 300 0 16) = true
  /\ fst (computeFilteredGazePoint afterOrigin 300 0 16)
     = {| px := 0; py := 0 |}
  /\ fst (computeFilteredGazePoint afterOrigin 300 0 16) <> rawPoint 300 0.
Proof.
  repeat split; try (vm_compute; reflexivity).
  intros H.
  apply (f_equal (fun p => PrimFloat.eqb (px p) 300)) in H.
  vm_compute in H. discriminate H.
Qed.

(** The eighth sample of a rest declares a fixation. *)
Lemma fixation_output_is_stabilised_example :
  computeFilteredGazePoint afterRest 140 100 350
  = emitted afterRest 140 100 350
      {| px := x restSmoothed + 0.15 * (px restCentroid - x restSmoothed);
         py := y restSmoothed + 0.15 * (py restCentroid - y restSmoothed) |}
  /\ (stabilityFactor <? 0.5) = true.
Proof.
  apply (fixation_output_is_stabilised afterRest restSmoothed 140 100 350
           restCentroid);
    vm_compute; reflexivity.
Defined.

(** C3 as stated fails: after seven samples resting at (100, 100), a
    sample at (140, 100) declares a fixation whose centroid lies near
    x = 118.7; the output, near x = 102.8, is the blend by the stability
    factor and is closer to the previous smoothed point than to the new
    centroid. *)
Lemma fixation_blend_leans_to_previous :
  smoothedPoint afterRest = Some restSmoothed
  /\ fixationCentroid 350
       (windowOf 350 (pushSample (gazeHistory afterRest) 140 100 350))
     = Some restCentroid
  /\ fst (computeFilteredGazePoint afterRest 140 100 350)
     = stabilise (Some restSmoothed) restCentroid
  /\ (118 <? px restCentroid) = true
  /\ (px (fst (computeFilteredGazePoint afterRest 140 100 350)) <? 103) = true
  /\ (PrimFloat.abs
        (px (fst (computeFilteredGazePoint afterRest 140 100 350))
         - x restSmoothed)
      <? PrimFloat.abs
           (px restCentroid
            - px (fst (computeFilteredGazePoint afterRest 140 100 350))))
     = true.
Proof.
  repeat split; vm_compute; reflexivity.
Qed.

(** The history after the seven resting samples. *)
Lemma history_stays_bounded_example :
  let history := gazeHistory (feed resetSmoothingState restRun) in
  (length history <= MAX_HISTORY_POINTS)%nat
  /\ match latestAccepted resetSmoothingState restRun None with
     | Some latest =>
         Forall (fun e => 0 <= latest - time e <= GAZE_HISTORY_MS)%Z history
         /\ (forall oldest, head history = Some oldest ->
                            latest - time oldest <= GAZE_HISTORY_MS)%Z
     | None => history = []
     end.
Proof.
  apply (history_stays_bounded restRun).
  repeat constructor; unfold byTime; cbn; lia.
Defined.

(** C9 at a failing input: three finite predictions at x = 1.5e308 pass
    the guard of [handleGazeData]; on the third the moving-average pass
    overflows and the published abscissa is Infinity. *)
Theorem huge_abscissa_publishes_infinity :
  map GazeX (published started hugeCalls) = [1.5e308; 1.5e308; infinity]
  /\ forallb (fun c => match cbPrediction c with
                       | Some p => Number_isFinite (predX p)
                                   && Number_isFinite (predY p)
                       | None => false
                       end) hugeCalls = true.
Proof. split; vm_compute; reflexivity. Qed.

End GazeFilterRuns.

(** * Properties of the selection wheel *)

Section WheelFacts.
Import Wheel.
Context {M : MathLib}.
Variable alphabet : IAlphabet.

(** ** Letter assignments *)

(** The assignment loop pairs the fixed zone order with the letters. *)
Lemma letterAssignmentsOf_zip (ls : list string) :
  letterAssignmentsOf ls = list_to_map (zip LETTER_ZONE_ORDER ls).
Proof.
  do 8 (destruct ls as [|? ls]; [reflexivity|]).
  reflexivity.
Qed.

Lemma letterAssignmentsOf_slot (ls : list string) (i zi : nat) :
  LETTER_ZONE_ORDER !! i = Some zi ->
  letterAssignmentsOf ls !! zi = ls !! i.
Proof.
  rewrite letterAssignmentsOf_zip. intros Hi.
  do 7 (destruct i as [|i];
        [injection Hi as <-;
         do 8 (destruct ls as [|? ls]; [reflexivity|]); reflexivity|]).
  discriminate Hi.
Qed.

Lemma letterAssignmentsOf_elsewhere (ls : list string) (zi : nat) :
  zi ∉ LETTER_ZONE_ORDER -> letterAssignmentsOf ls !! zi = None.
Proof.
  rewrite letterAssignmentsOf_zip. intros Hz.
  apply not_elem_of_list_to_map_1. intros Hin. apply Hz.
  apply list_elem_of_fmap in Hin as [[k v] [-> Hin]].
  by apply elem_of_zip_l in Hin.
Qed.

Lemma letterAssignmentsOf_Some (ls : list string) (zi : nat) (l : string) :
  letterAssignmentsOf ls !! zi = Some l ->
  exists i, LETTER_ZONE_ORDER !! i = Some zi /\ ls !! i = Some l.
Proof.
  rewrite letterAssignmentsOf_zip. intros Hl.
  apply elem_of_list_to_map_2 in Hl.
  apply list_elem_of_lookup in Hl as [i Hi].
  apply lookup_zip_Some in Hi. by exists i.
Qed.

(** ** Activation *)

Lemma activate_group (st : State) (z : nat) (zn : ILetterZone) (now : Z) :
  selectionLevel st = group ->
  z <> CENTER_INDEX -> z <> SOUTH_INDEX ->
  zones alphabet !! z = Some zn -> letters zn <> [] ->
  handleZoneActivation alphabet st (Some z) now
  = (commit (selectGroup st z) now, [Commit z now]).
Proof.
  intros Hg Hc Hs Hz Hl. unfold handleZoneActivation. rewrite Hg.
  apply Nat.eqb_neq in Hc, Hs. rewrite Hc, Hs, Hz.
  destruct (letters zn) as [|l ls]; [done|]. reflexivity.
Qed.

Lemma activate_back (st : State) (now : Z) :
  selectionLevel st = letter ->
  handleZoneActivation alphabet st (Some SOUTH_INDEX) now
  = (commit (resetSelection st) now, [Commit SOUTH_INDEX now]).
Proof. intros Hl. unfold handleZoneActivation. rewrite Hl. reflexivity. Qed.

(** C6: at Group level, committing a zone other than Center and South
    whose group has at least one letter moves to Letter level with that
    zone as the chosen group, and the letter assignments are then exactly
    the group's first seven letters laid in order onto the zones
    7, 0, 1, 2, 3, 5, 6: zone 7 carries the first letter, zone 0 the
    second, and so on to zone 6 with the seventh; South (4), Center (8)
    and any index above carry none; at Letter level, committing South
    returns to Group level with no chosen group and calls neither
    [onSelection] nor [onSubmit]. *)
Theorem group_commit_then_back (atGroup atLetter : State) (z : nat)
    (zn : ILetterZone) (now : Z) :
  selectionLevel atGroup = group ->
  z <> CENTER_INDEX -> z <> SOUTH_INDEX ->
  zones alphabet !! z = Some zn -> letters zn <> [] ->
  selectionLevel atLetter = letter ->
  let chosen := fst (handleZoneActivation alphabet atGroup (Some z) now) in
  let back :=
    handleZoneActivation alphabet atLetter (Some SOUTH_INDEX) now in
  (selectionLevel chosen = letter
   /\ selectedZone chosen = Some z
   /\ letterAssignments alphabet chosen
      = list_to_map (zip [7; 0; 1; 2; 3; 5; 6]%nat (letters zn))
   /\ (letterAssignments alphabet chosen !! 7%nat = letters zn !! 0%nat
       /\ letterAssignments alphabet chosen !! 0%nat = letters zn !! 1%nat
       /\ letterAssignments alphabet chosen !! 1%nat = letters zn !! 2%nat
       /\ letterAssignments alphabet chosen !! 2%nat = letters zn !! 3%nat
       /\ letterAssignments alphabet chosen !! 3%nat = letters zn !! 4%nat
       /\ letterAssignments alphabet chosen !! 5%nat = letters zn !! 5%nat
       /\ letterAssignments alphabet chosen !! 6%nat = letters zn !! 6%nat)
   /\ letterAssignments alphabet chosen !! 4%nat = None
   /\ letterAssignments alphabet chosen !! 8%nat = None
   /\ (forall zi, (8 < zi)%nat ->
                  letterAssignments alphabet chosen !! zi = None))
  /\ (selectionLevel (fst back) = group
      /\ selectedZone (fst back) = None
      /\ letterAssignments alphabet (fst back) = ∅
      /\ callbacks (snd back) = []).
Proof.
  intros Hg Hc Hs Hz Hl Hlet. cbv zeta.
  rewrite (activate_group _ _ _ _ Hg Hc Hs Hz Hl), (activate_back _ _ Hlet).
  cbn [fst snd].
  assert (Ha : letterAssignments alphabet (commit (selectGroup atGroup z) now)
               = letterAssignmentsOf (letters zn)).
  { unfold letterAssignments, activeLetters. cbn. by rewrite Hz. }
  assert (Hout : forall zi, zi ∉ [7; 0; 1; 2; 3; 5; 6]%nat ->
                            letterAssignmentsOf (letters zn) !! zi = None)
    by (intros zi Hzi; by apply letterAssignmentsOf_elsewhere).
  rewrite Ha.
  split; [|by repeat split].
  split; [reflexivity|]. split; [reflexivity|].
  split; [apply letterAssignmentsOf_zip|].
  split.
  { pose proof (letterAssignmentsOf_slot (letters zn)) as Hslot.
    split; [exact (Hslot 0%nat 7%nat eq_refl)|]. split; [exact (Hslot 1%nat 0%nat eq_refl)|].
    split; [exact (Hslot 2%nat 1%nat eq_refl)|]. split; [exact (Hslot 3%nat 2%nat eq_refl)|].
    split; [exact (Hslot 4%nat 3%nat eq_refl)|]. split; [exact (Hslot 5%nat 5%nat eq_refl)|].
    exact (Hslot 6%nat 6%nat eq_refl). }
  split; [apply Hout; rewrite !elem_of_cons, elem_of_nil; lia|].
  split; [apply Hout; rewrite !elem_of_cons, elem_of_nil; lia|].
  intros zi Hzi. apply Hout.
  rewrite !elem_of_cons, elem_of_nil. lia.
Qed.

(** ** The chosen-group invariant *)

(** At Letter level a group is chosen and it has a letter. *)
Definition chosenGroupInv (st : State) : Prop :=
  selectionLevel st = letter ->
  exists z zn, selectedZone st = Some z
               /\ zones alphabet !! z = Some zn
               /\ letters zn <> [].

Lemma chosenGroupInv_ext (st st' : State) :
  selectionLevel st' = selectionLevel st ->
  selectedZone st' = selectedZone st ->
  chosenGroupInv st -> chosenGroupInv st'.
Proof. unfold chosenGroupInv. intros -> ->. done. Qed.

Lemma chosenGroupInv_group (st : State) :
  selectionLevel st = group -> chosenGroupInv st.
Proof. unfold chosenGroupInv. intros ->. done. Qed.

Lemma handleZoneActivation_inv (st : State) (zoneIndex : option nat)
    (now : Z) :
  chosenGroupInv st ->
  chosenGroupInv (fst (handleZoneActivation alphabet st zoneIndex now)).
Proof.
  intros Hinv. unfold handleZoneActivation.
  destruct zoneIndex as [z|]; [|exact Hinv].
  destruct (selectionLevel st) eqn:Hlevel.
  - destruct (z =? CENTER_INDEX)%nat; [by apply chosenGroupInv_group|].
    destruct (z =? SOUTH_INDEX)%nat.
    { apply chosenGroupInv_group. exact Hlevel. }
    destruct (zones alphabet !! z) as [zn|] eqn:Hz; [|exact Hinv].
    destruct (0 <? length (letters zn))%nat eqn:Hlen; [|exact Hinv].
    intros _. exists z, zn. repeat split; [exact Hz|].
    apply Nat.ltb_lt in Hlen. intros Hnil. rewrite Hnil in Hlen.
    cbn in Hlen. lia.
  - destruct (z =? CENTER_INDEX)%nat; [by apply chosenGroupInv_group|].
    destruct (z =? SOUTH_INDEX)%nat; [by apply chosenGroupInv_group|].
    destruct (letterAssignments alphabet st !! z) as [l|]; [|exact Hinv].
    destruct (truthy l); [by apply chosenGroupInv_group|exact Hinv].
Qed.

Lemma handleZoneActivation_setDwell (st : State) (p : float) (b : bool)
    (zoneIndex : option nat) (now : Z) :
  snd (handleZoneActivation alphabet (setDwell st p b) zoneIndex now)
  = snd (handleZoneActivation alphabet st zoneIndex now).
Proof.
  unfold handleZoneActivation, letterAssignments.
  cbn [selectionLevel selectedZone setDwell].
  repeat case_match; reflexivity.
Qed.

Lemma gazeEffect_selection (st : State) (ly : Layout) (now : Z) :
  selectionLevel (gazeEffect alphabet st ly now) = selectionLevel st
  /\ selectedZone (gazeEffect alphabet st ly now) = selectedZone st.
Proof.
  unfold gazeEffect.
  repeat (first [case_match | case_bool_decide]); split; reflexivity.
Qed.

Lemma rerender_selection (old new : State) :
  selectionLevel (rerender old new) = selectionLevel new
  /\ selectedZone (rerender old new) = selectedZone new.
Proof.
  unfold rerender, dwellEffect.
  repeat case_match; split; reflexivity.
Qed.

Lemma step_inv (st : State) (a : Action) :
  chosenGroupInv st -> chosenGroupInv (fst (step alphabet st a)).
Proof.
  intros Hinv. destruct a as [ly now|now|]; cbn [step fst].
  - destruct (rerender_selection st (gazeEffect alphabet st ly now))
      as [H1 H2].
    destruct (gazeEffect_selection st ly now) as [H3 H4].
    eapply chosenGroupInv_ext; [| |exact Hinv]; congruence.
  - destruct (rafPending st); [|exact Hinv].
    destruct (tick alphabet st now) as [st' log] eqn:Htick. cbn [fst].
    destruct (rerender_selection st st') as [H1 H2].
    assert (Hst' : chosenGroupInv st').
    { unfold tick in Htick.
      destruct (hoveredZone st) as [hz|], (dwellStartTime st) as [ds|];
        try (injection Htick as <- _; exact Hinv).
      destruct (now <? cooldownUntil st)%Z;
        [injection Htick as <- _; exact Hinv|].
      destruct (DWELL_TIME <=? now - ds)%Z;
        [|injection Htick as <- _; exact Hinv].
      replace st' with
        (fst (handleZoneActivation alphabet
                (setDwell st (dwellProgress st) false) (Some hz) now))
        by (by rewrite Htick).
      apply handleZoneActivation_inv. exact Hinv. }
    eapply chosenGroupInv_ext; [exact H1|exact H2|exact Hst'].
  - unfold dwellEffect.
    destruct (hoveredZone st), (dwellStartTime st); exact Hinv.
Qed.

(** Under the invariant, a zone that is interactive at Letter level is
    Center, South, or carries a letter of the chosen group. *)
Lemma interactive_at_letter (st : State) :
  chosenGroupInv st ->
  selectionLevel st = letter ->
  exists z zn, selectedZone st = Some z
               /\ zones alphabet !! z = Some zn
               /\ letters zn <> []
               /\ forall index,
                    isZoneInteractive alphabet st index = true ->
                    index = CENTER_INDEX \/ index = SOUTH_INDEX
                    \/ exists l, l ∈ letters zn
                         /\ letterAssignments alphabet st !! index = Some l.
Proof.
  intros Hinv Hlevel. destruct (Hinv Hlevel) as (z & zn & Hsel & Hz & Hne).
  exists z, zn. repeat split; try done.
  intros index Hint. unfold isZoneInteractive in Hint.
  destruct (index =? CENTER_INDEX)%nat eqn:Hc;
    [left; by apply Nat.eqb_eq|].
  destruct (index =? SOUTH_INDEX)%nat eqn:Hs;
    [right; left; by apply Nat.eqb_eq|].
  cbn [orb] in Hint. rewrite Hlevel in Hint.
  destruct (letterAssignments alphabet st !! index) as [l|] eqn:Hl;
    [|discriminate].
  right; right. exists l. split; [|reflexivity].
  unfold letterAssignments, activeLetters in Hl. rewrite Hsel, Hz in Hl.
  apply letterAssignmentsOf_Some in Hl as (i & _ & Hi).
  by eapply list_elem_of_lookup_2.
Qed.

(** Activating a zone that is not interactive changes nothing and calls
    nothing. *)
Theorem inert_zone_activation (st : State) (z : nat) (now : Z) :
  isZoneInteractive alphabet st z = false ->
  handleZoneActivation alphabet st (Some z) now = (st, []).
Proof.
  unfold isZoneInteractive, handleZoneActivation. intros Hint.
  destruct (z =? CENTER_INDEX)%nat; [discriminate|].
  destruct (z =? SOUTH_INDEX)%nat; [discriminate|]. cbn [orb] in Hint.
  destruct (selectionLevel st).
  - destruct (zones alphabet !! z) as [zn|]; [|done]. by rewrite Hint.
  - by destruct (letterAssignments alphabet st !! z).
Qed.

End WheelFacts.

(** ** Dwell and cooldown *)

Section DwellFacts.
Import Wheel.
Context {M : MathLib}.
Variable alphabet : IAlphabet.

(** The state between a commit at time [t] and the end of its cooldown. *)
Definition cooling (t : Z) (st : State) : Prop :=
  hoveredZone st = None
  /\ dwellStartTime st = None
  /\ cooldownUntil st = t + COOLDOWN_TIME
  /\ rafPending st = false.

(** Every clock reading of the action is earlier than [limit]. *)
Definition before (limit : Z) (a : Action) : Prop :=
  forall now, clock a = Some now -> now < limit.


(** An activation that commits clears the hover and starts the cooldown. *)
Lemma activation_commit (st st' : State) (z : nat) (now : Z)
    (log : list Effect) :
  handleZoneActivation alphabet st (Some z) now = (st', log) ->
  commits log <> [] ->
  hoveredZone st' = None
  /\ dwellStartTime st' = None
  /\ cooldownUntil st' = now + COOLDOWN_TIME
  /\ rafPending st' = rafPending st
  /\ commits log = [Commit z now].
Proof.
  unfold handleZoneActivation. intros H Hc.
  repeat case_match; simplify_eq; done.
Qed.

Lemma rerender_fields (old new : State) :
  hoveredZone (rerender old new) = hoveredZone new
  /\ dwellStartTime (rerender old new) = dwellStartTime new
  /\ cooldownUntil (rerender old new) = cooldownUntil new
  /\ rafPending (rerender old new)
     = if dwellDepsChanged old new
       then match hoveredZone new, dwellStartTime new with
            | Some _, Some _ => true
            | _, _ => false
            end
       else rafPending new.
Proof.
  unfold rerender, dwellEffect.
  destruct (dwellDepsChanged old new); [|done].
  destruct (hoveredZone new) eqn:Hh, (dwellStartTime new) eqn:Hd;
    cbn; rewrite ?Hh, ?Hd; done.
Qed.

Lemma frame_commit (st st1 : State) (t : Z) (log : list Effect) :
  step alphabet st (Frame t) = (st1, log) ->
  commits log <> [] ->
  cooling t st1
  /\ exists z, hoveredZone st = Some z /\ commits log = [Commit z t].
Proof.
  cbn [step]. intros Hstep Hc.
  destruct (rafPending st); [|by simplify_eq].
  destruct (tick alphabet st t) as [st' log'] eqn:Htick. simplify_eq.
  unfold tick in Htick.
  destruct (hoveredZone st) as [hz|] eqn:Hh; [|by simplify_eq].
  destruct (dwellStartTime st) as [ds|]; [|by simplify_eq].
  destruct (t <? cooldownUntil st); [by simplify_eq|].
  destruct (DWELL_TIME <=? t - ds); [|by simplify_eq].
  destruct (activation_commit _ _ _ _ _ Htick Hc)
    as (H1 & H2 & H3 & H4 & H5).
  destruct (rerender_fields st st') as (R1 & R2 & R3 & R4).
  split; [|by exists hz].
  unfold cooling. rewrite R1, R2, R3, R4, H1, H2, H3, H4.
  repeat split. by destruct (dwellDepsChanged st st').
Qed.

Lemma cooling_step (t : Z) (st : State) (a : Action) :
  cooling t st -> before (t + COOLDOWN_TIME) a ->
  cooling t (fst (step alphabet st a)) /\ snd (step alphabet st a) = [].
Proof.
  intros (Hh & Hd & Hc & Hr) Hb. destruct a as [ly now|now|]; cbn [step].
  - assert (Hclear : gazeEffect alphabet st ly now = clearHover st).
    { unfold gazeEffect. destruct (negb (isTracking ly)); [done|].
      destruct (containerRef ly); [|done].
      assert (now < cooldownUntil st) as ->%Z.ltb_lt; [|done].
      rewrite Hc. by apply Hb. }
    rewrite Hclear. cbn [fst snd]. split; [|done].
    destruct (rerender_fields st (clearHover st)) as (R1 & R2 & R3 & R4).
    unfold cooling. rewrite R1, R2, R3, R4. cbn.
    repeat split; [done|].
    by destruct (dwellDepsChanged st (clearHover st)).
  - rewrite Hr. done.
  - cbn [fst snd]. split; [|done].
    unfold dwellEffect. rewrite Hh. done.
Qed.

Lemma cooling_run (t : Z) (actions : list Action) :
  forall st,
    cooling t st -> Forall (before (t + COOLDOWN_TIME)) actions ->
    cooling t (fst (run alphabet st actions))
    /\ snd (run alphabet st actions) = [].
Proof.
  induction actions as [|a rest IH]; intros st Hcool Hall; [done|].
  apply Forall_cons in Hall as [Ha Hrest]. cbn [run].
  destruct (cooling_step t st a Hcool Ha) as [Hcool1 Hlog1].
  destruct (step alphabet st a) as [st1 log1]. cbn [fst snd] in *.
  destruct (IH st1 Hcool1 Hrest) as [Hcool2 Hlog2].
  destruct (run alphabet st1 rest) as [st2 log2]. cbn [fst snd] in *.
  by subst.
Qed.

(** C2: after a commit made by the dwell path at time [t] (an animation
    frame whose tick commits), any run of gaze updates, animation frames
    and re-renders whose clock readings are all earlier than
    [t + COOLDOWN_TIME] makes no call at all: no [onSelection], no
    [onSubmit], no commit; throughout, hover and dwell start stay cleared
    and the cooldown deadline stays [t + COOLDOWN_TIME]. *)
Theorem no_commit_during_cooldown (st afterCommit : State) (t : Z)
    (log : list Effect) (actions : list Action) :
  step alphabet st (Frame t) = (afterCommit, log) ->
  commits log <> [] ->
  Forall (before (t + COOLDOWN_TIME)) actions ->
  snd (run alphabet afterCommit actions) = []
  /\ cooling t (fst (run alphabet afterCommit actions)).
Proof.
  intros Hstep Hc Hall.
  destruct (frame_commit _ _ _ _ Hstep Hc) as [Hcool _].
  destruct (cooling_run t actions afterCommit Hcool Hall). done.
Qed.

(** *** One continuous dwell *)

(** Every letter of the alphabet is a non-empty string. *)
Definition lettersTruthy : Prop :=
  Forall (fun zn => Forall (fun l => truthy l = true) (letters zn))
         (zones alphabet).

(** The scan keeps its winner or takes the zone it considers. *)
Lemma considerZone_zone (ly : Layout) (c : Candidate) (index : nat) :
  candidateZone (considerZone ly c index) = candidateZone c
  \/ candidateZone (considerZone ly c index) = Some index.
Proof.
  unfold considerZone.
  destruct (zoneRefs ly !! index) as [[r|]|]; [|by left|by left].
  cbv zeta.
  repeat (match goal with
          | |- context [if ?b then _ else _] => destruct b
          end); auto.
Qed.

Lemma scan_zone (ly : Layout) (seen : list nat) (c : Candidate) (z : nat) :
  candidateZone (fold_left (considerZone ly) seen c) = Some z ->
  candidateZone c = Some z \/ In z seen.
Proof.
  revert c. induction seen as [|i seen IH]; intros c Hz; [by left|].
  cbn [fold_left] in Hz. apply IH in Hz as [Hz|Hz]; [|right; by right].
  destruct (considerZone_zone ly c i) as [Hc|Hc]; rewrite Hc in Hz.
  - by left.
  - injection Hz as ->. right. by left.
Qed.

(** The zone the pointer resolves to is interactive. *)
Lemma resolveZone_interactive (st : State) (ly : Layout) (z : nat) :
  resolveZone alphabet st ly = Some z ->
  isZoneInteractive alphabet st z = true.
Proof.
  unfold resolveZone.
  set (c := fold_left (considerZone ly) (interactiveIndices alphabet st) _).
  destruct (candidateZone c) as [w|] eqn:Hw; [|discriminate].
  destruct (negb (candidateIsInside c) && _); [discriminate|].
  intros [= <-].
  apply scan_zone in Hw as [Hw|Hw]; [discriminate Hw|].
  unfold interactiveIndices in Hw. by apply filter_In in Hw as [_ Hint].
Qed.





Lemma isZoneInteractive_ext (st st' : State) :
  selectionLevel st' = selectionLevel st ->
  selectedZone st' = selectedZone st ->
  isZoneInteractive alphabet st' = isZoneInteractive alphabet st.
Proof.
  intros H1 H2. unfold isZoneInteractive, letterAssignments.
  by rewrite H1, H2.
Qed.



(** On a well-formed alphabet, activating an interactive zone commits. *)
Lemma interactive_commits (st : State) (z : nat) (now : Z) :
  lettersTruthy ->
  isZoneInteractive alphabet st z = true ->
  commits (snd (handleZoneActivation alphabet st (Some z) now))
  = [Commit z now].
Proof.
  intros Hwf Hint. unfold isZoneInteractive in Hint.
  unfold handleZoneActivation.
  destruct (selectionLevel st) eqn:Hlevel.
  - destruct (z =? CENTER_INDEX)%nat; [done|].
    destruct (z =? SOUTH_INDEX)%nat; [done|]. cbn [orb] in Hint.
    destruct (zones alphabet !! z) as [zn|]; [|done]. by rewrite Hint.
  - destruct (z =? CENTER_INDEX)%nat; [done|].
    destruct (z =? SOUTH_INDEX)%nat; [done|]. cbn [orb] in Hint.
    destruct (letterAssignments alphabet st !! z) as [l|] eqn:Hl; [|done].
    assert (Ht : truthy l = true); [|by rewrite Ht].
    unfold letterAssignments, activeLetters in Hl.
    apply letterAssignmentsOf_Some in Hl as (i & _ & Hi).
    destruct (selectedZone st) as [sz|]; [|done].
    destruct (zones alphabet !! sz) as [zn|] eqn:Hzn; [|done].
    unfold lettersTruthy in Hwf. rewrite Forall_forall in Hwf.
    specialize (Hwf zn (list_elem_of_lookup_2 _ _ _ Hzn)).
    rewrite Forall_forall in Hwf.
    exact (Hwf l (list_elem_of_lookup_2 _ _ _ Hi)).
Qed.




End DwellFacts.

(** ** The alphabets of the program *)

Section ProgramAlphabets.
Import Wheel.
Context {M : MathLib}.
Variable language : languages.

#[local] Abbreviation alphabet := (ALPHABETS language).

(** Every letter of the two alphabets is a non-empty string. *)
Lemma alphabets_lettersTruthy (lang : languages) :
  lettersTruthy (ALPHABETS lang).
Proof.
  destruct lang; unfold lettersTruthy; cbn [ALPHABETS zones];
    repeat (constructor; [repeat constructor|]); constructor.
Qed.

(** The two alphabets have letters in the same zones, so the invariant
    survives a change of the [language] prop. *)
Lemma language_switch_inv (lang lang' : languages) (st : State) :
  chosenGroupInv (ALPHABETS lang) st -> chosenGroupInv (ALPHABETS lang') st.
Proof.
  intros Hinv Hlevel. destruct (Hinv Hlevel) as (z & zn & Hsel & Hz & Hne).
  exists z.
  do 8 (destruct z as [|z];
        [destruct lang, lang'; cbn in Hz; injection Hz as <-;
         first [ exfalso; apply Hne; reflexivity
               | eexists; split; [done|]; split; [reflexivity|discriminate] ]
        |]).
  destruct lang; discriminate Hz.
Qed.

(** C10: the invariant "at Letter level a group is chosen and it has at
    least one letter" holds initially and is preserved by every
    activation (group commit, letter commit, back, submit, space), by
    [resetSelection], by every step of the component and by a change of
    language; under it, a zone that is interactive at Letter level is
    Center, South, or a zone that carries one of the chosen group's
    letters. *)
Theorem chosen_group_invariant :
  chosenGroupInv alphabet initial
  /\ forall st : State,
       chosenGroupInv alphabet st ->
       (forall zoneIndex now,
           chosenGroupInv alphabet
             (fst (handleZoneActivation alphabet st zoneIndex now)))
       /\ chosenGroupInv alphabet (resetSelection st)
       /\ (forall a, chosenGroupInv alphabet (fst (step alphabet st a)))
       /\ (forall language', chosenGroupInv (ALPHABETS language') st)
       /\ (selectionLevel st = letter ->
           exists z zn, selectedZone st = Some z
                        /\ zones alphabet !! z = Some zn
                        /\ letters zn <> []
                        /\ forall index,
                             isZoneInteractive alphabet st index = true ->
                             index = CENTER_INDEX \/ index = SOUTH_INDEX
                             \/ exists l, l ∈ letters zn
                                  /\ letterAssignments alphabet st !! index
                                     = Some l).
Proof.
  split; [by apply chosenGroupInv_group|].
  intros st Hinv. split; [|split; [|split; [|split]]].
  - intros zoneIndex now. by apply handleZoneActivation_inv.
  - by apply chosenGroupInv_group.
  - intros a. by apply step_inv.
  - intros language'. by apply (language_switch_inv language).
  - intros Hlevel. by apply interactive_at_letter.
Qed.



End ProgramAlphabets.

(** * The wheel on concrete inputs

    The English alphabet on a 300 x 300 container cut into nine cells of
    100 x 100, with the reference [MathLib]. *)

Section WheelRuns.
Import Wheel.
#[local] Existing Instance RefMath.
#[local] Open Scope float_scope.

Definition cell (l t : float) : option DOMRect :=
  Some {| left := l; top := t; right := l + 100; bottom := t + 100;
          width := 100; height := 100 |}.

(** Zones 0 to 8: N, NE, E, SE, S, SW, W, NW, Center. *)
Definition gridCells : list (option DOMRect) :=
  [ cell 100 0; cell 200 0; cell 200 100; cell 200 200; cell 100 200;
    cell 0 200; cell 0 100; cell 0 0; cell 100 100 ].

Definition pointerAt (gx gy : float) : Layout :=
  {| isTracking := true; gazeX := gx; gazeY := gy;
     containerRef :=
       Some {| left := 0; top := 0; right := 300; bottom := 300;
               width := 300; height := 300 |};
     zoneRefs := gridCells |}.

Definition en : IAlphabet := ALPHABETS english.

(** The pointer enters the North zone at time 5000. *)
Definition hoveringNorth : State :=
  fst (step en initial (Gaze (pointerAt 150 50) 5000)).

(** The frame at 6500 commits the North group. *)
Definition northCommitted : State := fst (step en hoveringNorth (Frame 6500)).

Definition northLog : list Effect := snd (step en hoveringNorth (Frame 6500)).

(** Zone 6 (West) carries the seven letters U V W 0 1 2 3. *)
Definition westZone : ILetterZone :=
  zone "U • V • W • 0 • 1 • 2 • 3" ["U"; "V"; "W"; "0"; "1"; "2"; "3"]
       "Vowel sounds & numbers".

Definition westChosen : State :=
  fst (handleZoneActivation en initial (Some 6%nat) 0).

(** The West group laid onto the zone order; South and Center carry no
    letter. *)
Example west_assignments :
  map (fun zi => letterAssignments en westChosen !! zi)
      [7; 0; 1; 2; 3; 5; 6; 4; 8]%nat
  = [Some "U"; Some "V"; Some "W"; Some "0"; Some "1"; Some "2"; Some "3";
     None; None]%string.
Proof. vm_compute. reflexivity. Qed.

(** Choosing the West group from the initial state, then going back. *)
Lemma group_commit_then_back_example :
  let chosen := fst (handleZoneActivation en initial (Some 6%nat) 2500) in
  let back := handleZoneActivation en westChosen (Some SOUTH_INDEX) 2500 in
  (selectionLevel chosen = letter
   /\ selectedZone chosen = Some 6%nat
   /\ letterAssignments en chosen
      = list_to_map (zip [7; 0; 1; 2; 3; 5; 6]%nat (letters westZone))
   /\ (letterAssignments en chosen !! 7%nat = letters westZone !! 0%nat
       /\ letterAssignments en chosen !! 0%nat = letters westZone !! 1%nat
       /\ letterAssignments en chosen !! 1%nat = letters westZone !! 2%nat
       /\ letterAssignments en chosen !! 2%nat = letters westZone !! 3%nat
       /\ letterAssignments en chosen !! 3%nat = letters westZone !! 4%nat
       /\ letterAssignments en chosen !! 5%nat = letters westZone !! 5%nat
       /\ letterAssignments en chosen !! 6%nat = letters westZone !! 6%nat)
   /\ letterAssignments en chosen !! 4%nat = None
   /\ letterAssignments en chosen !! 8%nat = None
   /\ (forall zi, (8 < zi)%nat ->
                  letterAssignments en chosen !! zi = None))
  /\ (selectionLevel (fst back) = group
      /\ selectedZone (fst back) = None
      /\ letterAssignments en (fst back) = ∅
      /\ callbacks (snd back) = []).
Proof.
  apply (group_commit_then_back en initial westChosen 6 westZone 2500);
    first [reflexivity | discriminate].
Defined.

(** With the first group chosen, five letters, zone 5 carries none. *)
Lemma inert_zone_activation_example :
  handleZoneActivation en
    (fst (handleZoneActivation en initial (Some 0%nat) 0)) (Some 5%nat) 2000
  = (fst (handleZoneActivation en initial (Some 0%nat) 0), []).
Proof.
  apply (inert_zone_activation en). vm_compute. reflexivity.
Defined.

(** After the North commit at 6500 nothing is called before 7500. *)
Lemma no_commit_during_cooldown_example :
  commits northLog = [Commit 0%nat 6500]
  /\ snd (run en northCommitted
            [Gaze (pointerAt 150 50) 6600; Frame 6700; Rerender;
             Gaze (pointerAt 150 50) 7499; Frame 7499]) = []
  /\ cooling 6500
       (fst (run en northCommitted
               [Gaze (pointerAt 150 50) 6600; Frame 6700; Rerender;
                Gaze (pointerAt 150 50) 7499; Frame 7499])).
Proof.
  split; [vm_compute; reflexivity|].
  apply (no_commit_during_cooldown en hoveringNorth northCommitted 6500
           northLog).
  - apply surjective_pairing.
  - vm_compute. discriminate.
  - repeat constructor; intros now [= <-]; unfold COOLDOWN_TIME; lia.
Defined.


End WheelRuns.

(** * More of the wheel: how the pointer resolves to a zone *)

Section PointerFacts.
Import Wheel.
Context {M : MathLib}.
Variable alphabet : IAlphabet.

#[local] Open Scope float_scope.

(** The rectangle behind [zoneRefs.current[index]], when the cell is
    mounted. *)
Definition zoneRect (ly : Layout) (index : nat) : option DOMRect :=
  match zoneRefs ly !! index with
  | Some (Some zoneRect) => Some zoneRect
  | _ => None
  end.

(** The tests [inside] and [normalizedDistance] of the scan. *)
Definition pointerInside (ly : Layout) (r : DOMRect) : bool :=
  (left r <=? gazeX ly) && (gazeX ly <=? right r)
  && (top r <=? gazeY ly) && (gazeY ly <=? bottom r).

Definition normalizedDistanceTo (ly : Layout) (r : DOMRect) : float :=
  let centerX := left r + width r / 2 in
  let centerY := top r + height r / 2 in
  let distance := Math_hypot (gazeX ly - centerX) (gazeY ly - centerY) in
  let radius := Math_min (width r) (height r) / 2 in
  if 0 <? radius then distance / radius else infinity.

(** The tolerance applied to a winner that does not contain the pointer. *)
Definition toleranceFor (st : State) (z : nat) : float :=
  if bool_decide (hoveredZone st = Some z) then EXIT_DISTANCE_RATIO
  else SNAP_DISTANCE_RATIO.

Definition noCandidate : Candidate :=
  {| candidateZone := None; candidateDistance := infinity;
     candidateIsInside := false |}.

Lemma considerZone_cases (ly : Layout) (c : Candidate) (index : nat) :
  considerZone ly c index
  = match zoneRect ly index with
    | Some r =>
        if pointerInside ly r then
          if negb (candidateIsInside c)
             || (normalizedDistanceTo ly r <? candidateDistance c)
          then {| candidateZone := Some index;
                  candidateDistance := normalizedDistanceTo ly r;
                  candidateIsInside := true |}
          else c
        else if candidateIsInside c then c
        else if normalizedDistanceTo ly r <? candidateDistance c
        then {| candidateZone := Some index;
                candidateDistance := normalizedDistanceTo ly r;
                candidateIsInside := candidateIsInside c |}
        else c
    | None => c
    end.
Proof.
  unfold considerZone, zoneRect.
  destruct (zoneRefs ly !! index) as [[r|]|]; reflexivity.
Qed.

(** What the scan knows about its current winner after the zones [seen]. *)
Definition winnerOK (ly : Layout) (seen : list nat) (c : Candidate) : Prop :=
  match candidateZone c with
  | Some z =>
      In z seen
      /\ exists r, zoneRect ly z = Some r
                   /\ candidateDistance c = normalizedDistanceTo ly r
                   /\ candidateIsInside c = pointerInside ly r
  | None => candidateIsInside c = false
  end.

Lemma winnerOK_more (ly : Layout) (seen : list nat) (i : nat) (c : Candidate) :
  winnerOK ly seen c -> winnerOK ly (seen ++ [i]) c.
Proof.
  unfold winnerOK. destruct (candidateZone c); [|done].
  intros [Hin Hr]. split; [|exact Hr]. apply in_or_app. by left.
Qed.

Lemma scan_winner (ly : Layout) (seen : list nat) :
  let c := fold_left (considerZone ly) seen noCandidate in
  winnerOK ly seen c
  /\ ((exists i r, In i seen /\ zoneRect ly i = Some r
                   /\ pointerInside ly r = true) ->
      candidateIsInside c = true).
Proof.
  induction seen as [|i seen IH] using rev_ind; cbv zeta.
  - split; [reflexivity|]. by intros (i & r & [] & _).
  - rewrite fold_left_app. cbn [fold_left].
    set (c := fold_left (considerZone ly) seen noCandidate) in *.
    cbv zeta in IH. destruct IH as [Hok Hin].
    rewrite considerZone_cases.
    assert (Hnew : forall b,
               zoneRect ly i = Some b ->
               forall inside, inside = pointerInside ly b ->
               winnerOK ly (seen ++ [i])
                 {| candidateZone := Some i;
                    candidateDistance := normalizedDistanceTo ly b;
                    candidateIsInside := inside |}).
    { intros b Hb inside ->. split; [apply in_or_app; right; by left|].
      exists b. by repeat split. }
    destruct (zoneRect ly i) as [r|] eqn:Hr.
    + destruct (pointerInside ly r) eqn:Hinside.
      * destruct (negb (candidateIsInside c)
                  || (normalizedDistanceTo ly r <? candidateDistance c))
          eqn:Hbetter.
        -- split; [by apply (Hnew r)|done].
        -- apply orb_false_iff in Hbetter as [Hc _].
           apply negb_false_iff in Hc.
           split; [by apply winnerOK_more|done].
      * assert (Hrest : (exists i0 r0, In i0 (seen ++ [i])
                           /\ zoneRect ly i0 = Some r0
                           /\ pointerInside ly r0 = true) ->
                        candidateIsInside c = true).
        { intros (i0 & r0 & Hi0 & Hr0 & Hp0). apply Hin.
          apply in_app_or in Hi0 as [Hi0|[<-|[]]]; [by exists i0, r0|].
          congruence. }
        destruct (candidateIsInside c) eqn:Hci.
        -- split; [by apply winnerOK_more|done].
        -- destruct (normalizedDistanceTo ly r <? candidateDistance c).
           ++ split; [by apply (Hnew r)|].
              intros H. by apply Hrest in H.
           ++ split; [by apply winnerOK_more|].
              intros H. rewrite Hci. by apply Hrest.
    + split; [by apply winnerOK_more|].
      intros (i0 & r0 & Hi0 & Hr0 & Hp0). apply Hin.
      apply in_app_or in Hi0 as [Hi0|[<-|[]]]; [by exists i0, r0|].
      congruence.
Qed.

(** The zone the pointer resolves to is one of the nine zones, is
    interactive at the current level, has a mounted rectangle, and either
    contains the pointer or lies within the tolerance: the exit ratio for
    the zone already hovered, the snap ratio for any other. *)
Theorem resolved_zone_is_sound (st : State) (ly : Layout) (z : nat) :
  resolveZone alphabet st ly = Some z ->
  (z < length ZONE_NAMES)%nat
  /\ isZoneInteractive alphabet st z = true
  /\ exists r, zoneRect ly z = Some r
               /\ (pointerInside ly r = true
                   \/ (toleranceFor st z <? normalizedDistanceTo ly r) = false).
Proof.
  unfold resolveZone. fold noCandidate.
  destruct (scan_winner ly (interactiveIndices alphabet st)) as [Hok _].
  cbv zeta in Hok. unfold winnerOK in Hok.
  set (c := fold_left (considerZone ly) (interactiveIndices alphabet st)
              noCandidate) in *.
  destruct (candidateZone c) as [w|]; [|discriminate].
  destruct Hok as [Hin (r & Hr & Hd & Hi)].
  fold (toleranceFor st w).
  destruct (negb (candidateIsInside c)
            && (toleranceFor st w <? candidateDistance c)) eqn:Hdrop;
    [discriminate|].
  intros [= <-].
  unfold interactiveIndices in Hin. apply filter_In in Hin as [Hseq Hint].
  apply in_seq in Hseq.
  split; [lia|]. split; [exact Hint|].
  exists r. split; [exact Hr|].
  rewrite <- Hi, <- Hd.
  apply andb_false_iff in Hdrop as [Hd1|Hd2]; [left|right; exact Hd2].
  by apply negb_false_iff in Hd1.
Qed.

(** A pointer inside the rectangle of some interactive zone always
    resolves, and to a zone whose rectangle contains it: no tolerance
    applies and no zone that merely lies nearer wins. *)
Theorem containing_zone_wins (st : State) (ly : Layout) (i : nat)
    (r : DOMRect) :
  (i < length ZONE_NAMES)%nat ->
  isZoneInteractive alphabet st i = true ->
  zoneRect ly i = Some r ->
  pointerInside ly r = true ->
  exists z rz, resolveZone alphabet st ly = Some z
               /\ zoneRect ly z = Some rz
               /\ pointerInside ly rz = true.
Proof.
  intros Hi Hint Hr Hp. unfold resolveZone. fold noCandidate.
  destruct (scan_winner ly (interactiveIndices alphabet st)) as [Hok Hin].
  cbv zeta in Hok, Hin. unfold winnerOK in Hok.
  set (c := fold_left (considerZone ly) (interactiveIndices alphabet st)
              noCandidate) in *.
  assert (Hc : candidateIsInside c = true).
  { apply Hin. exists i, r. repeat split; try done.
    unfold interactiveIndices. apply filter_In. split; [|exact Hint].
    apply in_seq. lia. }
  destruct (candidateZone c) as [w|]; [|congruence].
  destruct Hok as [_ (rw & Hrw & _ & Hiw)].
  exists w, rw. rewrite Hc. cbn [negb andb].
  repeat split; [exact Hrw|congruence].
Qed.

End PointerFacts.

(** * More of the wheel: which zones the dwell path commits, and when *)

Section CommitFacts.
Import Wheel.
Context {M : MathLib}.
Variable alphabet : IAlphabet.

(** The hovered zone is interactive at the current level. *)
Definition hoverInv (st : State) : Prop :=
  forall z, hoveredZone st = Some z -> isZoneInteractive alphabet st z = true.

Lemma hoverInv_ext (st st' : State) :
  selectionLevel st' = selectionLevel st ->
  selectedZone st' = selectedZone st ->
  hoveredZone st' = hoveredZone st ->
  hoverInv st -> hoverInv st'.
Proof.
  intros H1 H2 H3 Hinv z Hz.
  rewrite (isZoneInteractive_ext alphabet st st' H1 H2).
  apply Hinv. congruence.
Qed.

Lemma hoverInv_none (st : State) : hoveredZone st = None -> hoverInv st.
Proof. intros Hn z Hz. congruence. Qed.

(** An activation either does nothing or commits, which clears the hover. *)
Lemma activation_outcome (st : State) (z : nat) (now : Z) :
  handleZoneActivation alphabet st (Some z) now = (st, [])
  \/ (hoveredZone (fst (handleZoneActivation alphabet st (Some z) now)) = None
      /\ dwellStartTime (fst (handleZoneActivation alphabet st (Some z) now))
         = None
      /\ cooldownUntil (fst (handleZoneActivation alphabet st (Some z) now))
         = now + COOLDOWN_TIME
      /\ commits (snd (handleZoneActivation alphabet st (Some z) now))
         = [Commit z now]).
Proof.
  unfold handleZoneActivation.
  repeat case_match; first [by left | by right].
Qed.

Lemma gazeEffect_hoverInv (st : State) (ly : Layout) (now : Z) :
  hoverInv st -> hoverInv (gazeEffect alphabet st ly now).
Proof.
  intros Hinv. unfold gazeEffect.
  destruct (negb (isTracking ly)); [by apply hoverInv_none|].
  destruct (containerRef ly) as [c|]; [|by apply hoverInv_none].
  destruct (now <? cooldownUntil st); [by apply hoverInv_none|].
  destruct (outsideContainer c ly); [by apply hoverInv_none|].
  cbv zeta.
  destruct (resolveZone alphabet st ly) as [z|] eqn:Hres;
    [|by apply hoverInv_none].
  case_bool_decide as Hsame.
  - destruct (dwellStartTime st); by apply (hoverInv_ext st).
  - intros w [= <-].
    pose proof (resolveZone_interactive alphabet st ly z Hres) as Hint.
    erewrite (isZoneInteractive_ext alphabet st); [exact Hint|done|done].
Qed.

Lemma rerender_hoverInv (old new : State) :
  hoverInv new -> hoverInv (rerender old new).
Proof.
  destruct (rerender_selection old new) as [H1 H2].
  destruct (rerender_fields old new) as (H3 & _).
  by apply hoverInv_ext.
Qed.

Lemma tick_hoverInv (st : State) (now : Z) :
  hoverInv st -> hoverInv (fst (tick alphabet st now)).
Proof.
  intros Hinv. unfold tick.
  destruct (hoveredZone st) as [hz|] eqn:Hh;
    [|by apply (hoverInv_ext st)].
  destruct (dwellStartTime st) as [ds|]; [|by apply (hoverInv_ext st)].
  destruct (now <? cooldownUntil st); [by apply (hoverInv_ext st)|].
  destruct (DWELL_TIME <=? now - ds); [|by apply (hoverInv_ext st)].
  destruct (activation_outcome (setDwell st (dwellProgress st) false) hz now)
    as [Hsame|[Hnone _]].
  - rewrite Hsame. by apply (hoverInv_ext st).
  - by apply hoverInv_none.
Qed.

Lemma step_hoverInv (st : State) (a : Action) :
  hoverInv st -> hoverInv (fst (step alphabet st a)).
Proof.
  intros Hinv. destruct a as [ly now|now|]; cbn [step fst].
  - by apply rerender_hoverInv, gazeEffect_hoverInv.
  - destruct (rafPending st); [|exact Hinv].
    pose proof (tick_hoverInv st now Hinv) as Ht.
    destruct (tick alphabet st now) as [st' log]. cbn [fst] in *.
    by apply rerender_hoverInv.
  - unfold dwellEffect.
    destruct (hoveredZone st) eqn:Hh, (dwellStartTime st);
      by apply (hoverInv_ext st).
Qed.

Lemma run_hoverInv (actions : list Action) :
  forall st, hoverInv st -> hoverInv (fst (run alphabet st actions)).
Proof.
  induction actions as [|a rest IH]; intros st Hinv; [exact Hinv|].
  cbn [run]. pose proof (step_hoverInv st a Hinv) as H1.
  destruct (step alphabet st a) as [st1 log1]. cbn [fst] in H1.
  pose proof (IH st1 H1) as H2.
  by destruct (run alphabet st1 rest) as [st2 log2].
Qed.

Lemma commit_in_commits (log : list Effect) (z : nat) (t : Z) :
  In (Commit z t) log -> In (Commit z t) (commits log).
Proof. intros Hin. unfold commits. apply filter_In. by split. Qed.

(** A commit made by a step comes from an animation frame at that time
    and is the commit of the hovered zone. *)
Lemma step_commit (st : State) (a : Action) (z : nat) (t : Z) :
  In (Commit z t) (snd (step alphabet st a)) ->
  a = Frame t /\ hoveredZone st = Some z
  /\ commits (snd (step alphabet st a)) = [Commit z t].
Proof.
  intros Hin. destruct a as [ly now|now|]; [by cbn in Hin| |by cbn in Hin].
  pose proof (commit_in_commits _ _ _ Hin) as Hc.
  destruct (step alphabet st (Frame now)) as [st1 log] eqn:Hstep.
  cbn [snd] in *.
  assert (Hne : commits log <> []) by (intros E; by rewrite E in Hc).
  destruct (frame_commit alphabet _ _ _ _ Hstep Hne) as [_ (w & Hw & Hlog)].
  rewrite Hlog in Hc. destruct Hc as [[= <- <-]|[]]. done.
Qed.

(** Whatever gaze updates, frames and re-renders the component has gone
    through since it was mounted, a commit made by the next step is made
    by an animation frame, at that frame's time, for the zone hovered
    then, and that zone is interactive at the level of that moment. *)
Theorem dwell_commits_interactive_zone (actions : list Action) (a : Action)
    (z : nat) (t : Z) :
  let st := fst (run alphabet initial actions) in
  In (Commit z t) (snd (step alphabet st a)) ->
  a = Frame t
  /\ hoveredZone st = Some z
  /\ isZoneInteractive alphabet st z = true.
Proof.
  cbv zeta. intros Hin.
  destruct (step_commit _ _ _ _ Hin) as (Ha & Hh & _).
  repeat split; try done.
  apply (run_hoverInv actions initial); [|exact Hh].
  by apply hoverInv_none.
Qed.

(** ** The spacing of commits *)

(** No dwell can have started before [b], nor can one start before [b]. *)
Definition quietUntil (b : Z) (st : State) : Prop :=
  b <= cooldownUntil st
  /\ forall d, dwellStartTime st = Some d -> b <= d.

Lemma quietUntil_ext (b : Z) (st st' : State) :
  cooldownUntil st' = cooldownUntil st ->
  dwellStartTime st' = dwellStartTime st ->
  quietUntil b st -> quietUntil b st'.
Proof. unfold quietUntil. by intros -> ->. Qed.

Lemma quietUntil_start (b : Z) (st st' : State) (now : Z) :
  cooldownUntil st' = cooldownUntil st ->
  dwellStartTime st' = Some now ->
  cooldownUntil st <= now ->
  quietUntil b st -> quietUntil b st'.
Proof.
  unfold quietUntil. intros -> -> Hnow [Hc _]. split; [done|].
  intros d [= <-]. lia.
Qed.

Lemma quietUntil_idle (b : Z) (st st' : State) :
  b <= cooldownUntil st' ->
  dwellStartTime st' = None ->
  quietUntil b st'.
Proof. unfold quietUntil. by intros ? ->. Qed.

Lemma gazeEffect_quiet (b : Z) (st : State) (ly : Layout) (now : Z) :
  quietUntil b st -> quietUntil b (gazeEffect alphabet st ly now).
Proof.
  intros Hq. pose proof Hq as [Hc _]. unfold gazeEffect.
  destruct (negb (isTracking ly)); [by apply (quietUntil_idle b st)|].
  destruct (containerRef ly) as [c|]; [|by apply (quietUntil_idle b st)].
  destruct (now <? cooldownUntil st) eqn:Hnow;
    [by apply (quietUntil_idle b st)|].
  apply Z.ltb_ge in Hnow.
  destruct (outsideContainer c ly); [by apply (quietUntil_idle b st)|].
  cbv zeta.
  destruct (resolveZone alphabet st ly) as [z|];
    [|by apply (quietUntil_idle b st)].
  case_bool_decide.
  - destruct (dwellStartTime st) as [d|] eqn:Hds.
    + by apply (quietUntil_ext b st).
    + by apply (quietUntil_start b st _ now).
  - by apply (quietUntil_start b st _ now).
Qed.

Lemma rerender_quiet (b : Z) (old new : State) :
  quietUntil b new -> quietUntil b (rerender old new).
Proof.
  destruct (rerender_fields old new) as (_ & H2 & H3 & _).
  by apply quietUntil_ext.
Qed.

Lemma tick_quiet (b : Z) (st : State) (now : Z) :
  quietUntil b st ->
  quietUntil b (fst (tick alphabet st now))
  /\ forall z t, In (Commit z t) (snd (tick alphabet st now)) ->
                 b + DWELL_TIME <= t.
Proof.
  intros Hq. pose proof Hq as [Hc Hd]. unfold tick.
  destruct (hoveredZone st) as [hz|];
    [|split; [by apply (quietUntil_ext b st)|done]].
  destruct (dwellStartTime st) as [ds|] eqn:Hds;
    [|split; [by apply (quietUntil_ext b st)|done]].
  specialize (Hd ds eq_refl).
  destruct (now <? cooldownUntil st) eqn:Hnow;
    [split; [by apply (quietUntil_ext b st)|done]|].
  apply Z.ltb_ge in Hnow.
  destruct (DWELL_TIME <=? now - ds) eqn:Hdw;
    [|split; [by apply (quietUntil_ext b st)|done]].
  apply Z.leb_le in Hdw.
  destruct (activation_outcome (setDwell st (dwellProgress st) false) hz now)
    as [Hsame|(_ & Hnone & Hcd & Hlog)].
  - rewrite Hsame. split; [by apply (quietUntil_ext b st)|done].
  - split.
    + apply (quietUntil_idle b st); [|exact Hnone].
      rewrite Hcd. unfold COOLDOWN_TIME. lia.
    + intros z t Hin. apply commit_in_commits in Hin.
      rewrite Hlog in Hin. destruct Hin as [[= <- <-]|[]]. lia.
Qed.

Lemma step_quiet (b : Z) (st : State) (a : Action) :
  quietUntil b st ->
  quietUntil b (fst (step alphabet st a))
  /\ forall z t, In (Commit z t) (snd (step alphabet st a)) ->
                 b + DWELL_TIME <= t.
Proof.
  intros Hq. destruct a as [ly now|now|]; cbn [step fst snd].
  - split; [by apply rerender_quiet, gazeEffect_quiet|done].
  - destruct (rafPending st); [|by split].
    destruct (tick_quiet b st now Hq) as [H1 H2].
    destruct (tick alphabet st now) as [st' log]. cbn [fst snd] in *.
    split; [by apply rerender_quiet|exact H2].
  - split; [|done]. unfold dwellEffect.
    destruct (hoveredZone st), (dwellStartTime st); exact Hq.
Qed.

Lemma run_quiet (b : Z) (actions : list Action) :
  forall st,
    quietUntil b st ->
    forall z t, In (Commit z t) (snd (run alphabet st actions)) ->
                b + DWELL_TIME <= t.
Proof.
  induction actions as [|a rest IH]; intros st Hq z t Hin; [done|].
  cbn [run] in Hin. destruct (step_quiet b st a Hq) as [H1 H2].
  destruct (step alphabet st a) as [st1 log1]. cbn [fst snd] in *.
  specialize (IH st1 H1 z t).
  destruct (run alphabet st1 rest) as [st2 log2]. cbn [snd] in *.
  apply in_app_or in Hin as [Hin|Hin]; [by apply (H2 z)|by apply IH].
Qed.

(** After a dwell commit at time [t0], every later dwell commit, whatever
    the pointer does and in whatever order gaze updates and frames
    arrive, happens at [t0 + COOLDOWN_TIME + DWELL_TIME] or later: the
    cooldown must end before a new dwell can start, and the dwell must
    then last its full time. *)
Theorem commits_are_spaced (st afterCommit : State) (t0 : Z)
    (log : list Effect) (actions : list Action) (z : nat) (t : Z) :
  step alphabet st (Frame t0) = (afterCommit, log) ->
  commits log <> [] ->
  In (Commit z t) (snd (run alphabet afterCommit actions)) ->
  t0 + COOLDOWN_TIME + DWELL_TIME <= t.
Proof.
  intros Hstep Hc Hin.
  destruct (frame_commit alphabet _ _ _ _ Hstep Hc)
    as [(_ & Hd & Hcd & _) _].
  apply (run_quiet (t0 + COOLDOWN_TIME) actions afterCommit) with (z := z);
    [|exact Hin].
  split; [lia|]. rewrite Hd. done.
Qed.

End CommitFacts.

(** * More of the wheel: what a cell shows, clicks and keys *)

Module WheelView.
Import Wheel.

#[local] Open Scope string_scope.

Record CellContent := { title : string; detail : string }.

Section View.
Context {M : MathLib}.
Variable alphabet : IAlphabet.

Definition emptyCell : CellContent := {| title := ""; detail := "" |}.

(** [renderCellContent]. *)
Definition renderCellContent (st : State) (index : nat) : CellContent :=
  match selectionLevel st with
  | group =>
      if (index =? CENTER_INDEX)%nat then
        {| title := submit_label (specialActions alphabet);
           detail := "Send the current phrase" |}
      else if (index =? SOUTH_INDEX)%nat then
        {| title := delete_label (specialActions alphabet);
           detail := "Remove the last character" |}
      else
        match zones alphabet !! index with
        | None => emptyCell
        | Some zn => {| title := label zn; detail := default "" (hint zn) |}
        end
  | letter =>
      if (index =? CENTER_INDEX)%nat then
        {| title := space_label (specialActions alphabet);
           detail := "Insert a space" |}
      else if (index =? SOUTH_INDEX)%nat then
        {| title := backLabel alphabet;
           detail := "Return to the letter groups" |}
      else
        match letterAssignments alphabet st !! index with
        | Some l =>
            if truthy l then {| title := l; detail := "Add this sound" |}
            else emptyCell
        | None => emptyCell
        end
  end.

(** [handleClick] of the cell [index]. *)
Definition handleClick (st : State) (index : nat) (now : Z)
  : State * list Effect :=
  if isZoneInteractive alphabet st index
  then handleZoneActivation alphabet st (Some index) now
  else (st, []).

(** [handleKeyDown] of the cell [index], [key] being [event.key]. *)
Definition handleKeyDown (st : State) (index : nat) (key : string) (now : Z)
  : State * list Effect :=
  if negb (isZoneInteractive alphabet st index) then (st, [])
  else if String.eqb key "Enter" || String.eqb key " "
  then handleZoneActivation alphabet st (Some index) now
  else (st, []).

End View.

End WheelView.

Section ViewFacts.
Import Wheel WheelView.
Context {M : MathLib}.

(** At Letter level, a cell other than Center and South shows a title
    exactly when activating it does something, and then the title is the
    sound handed to [onSelection]: activation sends what the cell shows,
    and a cell that shows nothing is inert. *)
Theorem shown_letter_is_sent (alphabet : IAlphabet) (st : State)
    (index : nat) (now : Z) :
  selectionLevel st = letter ->
  index <> CENTER_INDEX -> index <> SOUTH_INDEX ->
  handleZoneActivation alphabet st (Some index) now
  = if truthy (title (renderCellContent alphabet st index))
    then (commit (resetSelection st) now,
          [OnSelection (title (renderCellContent alphabet st index));
           Commit index now])
    else (st, []).
Proof.
  intros Hl Hc Hs. apply Nat.eqb_neq in Hc, Hs.
  unfold handleZoneActivation, renderCellContent. rewrite Hl, Hc, Hs.
  destruct (letterAssignments alphabet st !! index) as [l|]; [|reflexivity].
  destruct (truthy l) eqn:Ht; cbn [title]; [by rewrite Ht|reflexivity].
Qed.

(** With either alphabet of the program, a click on a cell, or Enter or
    Space on it, commits that zone exactly when it is interactive, whether
    or not a cooldown is running; any other key, and any click or key on a
    cell that is not interactive, changes nothing. *)
Theorem click_and_keys_commit (language : languages) (st : State)
    (index : nat) (key : string) (now : Z) :
  let alphabet := ALPHABETS language in
  commits (snd (handleClick alphabet st index now))
  = (if isZoneInteractive alphabet st index then [Commit index now] else [])
  /\ (isZoneInteractive alphabet st index = true ->
      cooldownUntil (fst (handleClick alphabet st index now))
      = now + COOLDOWN_TIME)
  /\ (isZoneInteractive alphabet st index = false ->
      handleClick alphabet st index now = (st, []))
  /\ handleKeyDown alphabet st index key now
     = if String.eqb key "Enter" || String.eqb key " "
       then handleClick alphabet st index now
       else (st, []).
Proof.
  cbv zeta. unfold handleClick, handleKeyDown.
  destruct (isZoneInteractive (ALPHABETS language) st index) eqn:Hint;
    cbn [negb].
  - pose proof (interactive_commits (ALPHABETS language) st index now
                  (alphabets_lettersTruthy language) Hint) as Hc.
    split; [exact Hc|]. split; [intros _|split; [done|reflexivity]].
    destruct (activation_outcome (ALPHABETS language) st index now)
      as [Hsame|(_ & _ & Hcd & _)]; [|exact Hcd].
    rewrite Hsame in Hc. discriminate Hc.
  - split; [reflexivity|]. split; [done|]. split; [done|].
    by destruct (String.eqb key "Enter" || String.eqb key " ").
Qed.

End ViewFacts.

(** * The tracking session (hook [useEyeTracking], around the filter)

    The hook's refs and state cells, its handlers, and the events that
    drive them: the buttons, the tracker's callback, the outcome of
    [webgazer.begin()], the end of calibration and the two timers.  Calls
    into [window.webgazer] that are wrapped in [try] / [catch] have no
    effect on the hook's own state when they throw, and are not modelled
    beyond the two the restart cycle makes, [pause] and [resume]. *)

Module Session.
Import GazeFilter.

#[local] Open Scope string_scope.

Definition AUTO_RESTART_THRESHOLD : Z := 25000.
Definition HEALTH_CHECK_INTERVAL : Z := 4000.
Definition RESTART_DELAY : Z := 250.

#[global] Instance TrackingStatus_eq_dec : EqDecision TrackingStatus.
Proof. solve_decision. Defined.

(** [tracker] holds [isManuallyStoppedRef], the two smoothing refs,
    [gazeData], [lastResultRef] and [status]; [restartTimer] and
    [healthInterval] tell whether [restartTimerRef] and
    [healthIntervalRef] hold a pending timer. *)
Record Hook := {
  tracker : Tracker;
  errorMessage : option string;
  showCalibration : bool;
  hasCalibrated : bool;
  restarting : bool;
  restartTimer : bool;
  healthInterval : bool
}.

(** The hook when the component mounts. *)
Definition mounted : Hook :=
  {| tracker :=
       {| isManuallyStopped := true; filter := resetSmoothingState;
          gazeData := None; lastResult := None; status := inactive |};
     errorMessage := None; showCalibration := false; hasCalibrated := false;
     restarting := false; restartTimer := false; healthInterval := false |}.

(** What a handler does that is seen outside the hook's state. *)
Inductive Output :=
| Published (d : GazeData)
| Paused
| Resumed.

Inductive Event :=
| StartTracking (configError : option string) (now : Z)
| StopTracking
| BeginResolved
| BeginRejected (name message : string)
| GazeSample (prediction : option WebGazerPrediction) (elapsedTime : float)
    (now : Z)
| CalibrationDone (now : Z)
| HealthTick (now : Z)
| RestartTimerFired.

Section Handlers.
Context {M : MathLib}.

(** Whether [window.webgazer] is there. *)
Variable webgazer : bool.

Definition withTracker (h : Hook) (tr : Tracker) : Hook :=
  {| tracker := tr; errorMessage := errorMessage h;
     showCalibration := showCalibration h; hasCalibrated := hasCalibrated h;
     restarting := restarting h; restartTimer := restartTimer h;
     healthInterval := healthInterval h |}.

(** The common part of [stopTracking], [handleError] and
    [handleCameraDenied]: the manual-stop flag is raised, both timers are
    cleared, the smoothing state is reset. *)
Definition halt (h : Hook) (newStatus : TrackingStatus)
    (newError : option string) (newGazeData : option GazeData) : Hook :=
  {| tracker :=
       {| isManuallyStopped := true; filter := resetSmoothingState;
          gazeData := newGazeData; lastResult := None; status := newStatus |};
     errorMessage := newError; showCalibration := showCalibration h;
     hasCalibrated := hasCalibrated h;
     restarting := false; restartTimer := false; healthInterval := false |}.

Definition stopTracking (h : Hook) : Hook :=
  halt h inactive (errorMessage h) None.

Definition handleError (h : Hook) (msg : string) : Hook :=
  halt h error (Some msg) (gazeData (tracker h)).

Definition handleCameraDenied (h : Hook) : Hook :=
  halt h denied
    (Some "Camera access was denied. Please allow camera access to use this feature.")
    None.

Definition handleCalibrationDone (h : Hook) (now : Z) : Hook :=
  {| tracker :=
       {| isManuallyStopped := isManuallyStopped (tracker h);
          filter := resetSmoothingState;
          gazeData := gazeData (tracker h);
          lastResult := Some now; status := active |};
     errorMessage := errorMessage h; showCalibration := false;
     hasCalibrated := true;
     restarting := restarting h; restartTimer := restartTimer h;
     healthInterval := healthInterval h |}.

Definition startTracking (h : Hook) (configError : option string) (now : Z)
  : Hook :=
  if negb webgazer then
    {| tracker := tracker h;
       errorMessage :=
         Some "WebGazer not loaded. Please check your internet connection.";
       showCalibration := showCalibration h; hasCalibrated := hasCalibrated h;
       restarting := restarting h; restartTimer := restartTimer h;
       healthInterval := healthInterval h |}
  else
    let begun :=
      {| tracker :=
           {| isManuallyStopped := false; filter := resetSmoothingState;
              gazeData := gazeData (tracker h); lastResult := Some now;
              status := if hasCalibrated h then reconnecting else calibrating |};
         errorMessage := None;
         showCalibration :=
           if hasCalibrated h then showCalibration h else true;
         hasCalibrated := hasCalibrated h;
         restarting := false; restartTimer := false;
         healthInterval := healthInterval h |} in
    match configError with
    | Some message =>
        handleError begun ("Failed to configure eye tracking: " ++ message)
    | None => begun
    end.

Definition beginResolved (h : Hook) : Hook :=
  if hasCalibrated h then
    withTracker h
      {| isManuallyStopped := isManuallyStopped (tracker h);
         filter := filter (tracker h); gazeData := gazeData (tracker h);
         lastResult := lastResult (tracker h); status := active |}
  else h.

Definition beginRejected (h : Hook) (name message : string) : Hook :=
  if String.eqb name "NotAllowedError" then handleCameraDenied h
  else handleError h ("Failed to start eye tracking: " ++ message).

Definition restartTracking (h : Hook) (now : Z) : Hook * list Output :=
  if negb webgazer || isManuallyStopped (tracker h) then (h, [])
  else if restarting h then (h, [])
  else
    ({| tracker :=
          {| isManuallyStopped := isManuallyStopped (tracker h);
             filter := filter (tracker h); gazeData := gazeData (tracker h);
             lastResult := Some now; status := reconnecting |};
        errorMessage := errorMessage h; showCalibration := showCalibration h;
        hasCalibrated := hasCalibrated h;
        restarting := true; restartTimer := true;
        healthInterval := healthInterval h |}, [Paused]).

(** The callback of the restart timeout. *)
Definition restartTimerFired (h : Hook) : Hook * list Output :=
  if restartTimer h then
    ({| tracker := tracker h; errorMessage := errorMessage h;
        showCalibration := showCalibration h;
        hasCalibrated := hasCalibrated h;
        restarting := false; restartTimer := false;
        healthInterval := healthInterval h |},
     if webgazer then [Resumed] else [])
  else (h, []).

(** The callback of the health-check interval.  [!lastResult] is true
    for [null] and for 0. *)
Definition healthTick (h : Hook) (now : Z) : Hook * list Output :=
  if healthInterval h then
    if isManuallyStopped (tracker h) then (h, [])
    else
      match lastResult (tracker h) with
      | None => (h, [])
      | Some lastResult =>
          if (lastResult =? 0)%Z then (h, [])
          else if (AUTO_RESTART_THRESHOLD <? now - lastResult)%Z
          then restartTracking h now
          else (h, [])
      end
  else (h, []).

(** The health-check effect being rerun: the old interval is cleared and
    a new one is set unless tracking is stopped, not calibrated, or in a
    terminal status. *)
Definition healthEffect (h : Hook) : Hook :=
  {| tracker := tracker h; errorMessage := errorMessage h;
     showCalibration := showCalibration h; hasCalibrated := hasCalibrated h;
     restarting := restarting h; restartTimer := restartTimer h;
     healthInterval :=
       if isManuallyStopped (tracker h) then false
       else if negb (hasCalibrated h) then false
       else match status (tracker h) with
            | inactive | denied | error => false
            | _ => true
            end |}.

(** React reruns the health-check effect after a render in which
    [status] changed. *)
Definition syncHealth (old new : Hook) : Hook :=
  if bool_decide (status (tracker old) = status (tracker new)) then new
  else healthEffect new.

Definition handle (h : Hook) (e : Event) : Hook * list Output :=
  let '(h', out) :=
    match e with
    | StartTracking configError now => (startTracking h configError now, [])
    | StopTracking => (stopTracking h, [])
    | BeginResolved => (beginResolved h, [])
    | BeginRejected name message => (beginRejected h name message, [])
    | GazeSample prediction elapsedTime now =>
        let '(tr, published) :=
          handleGazeData (tracker h) prediction elapsedTime now in
        (withTracker h tr,
         match published with Some d => [Published d] | None => [] end)
    | CalibrationDone now => (handleCalibrationDone h now, [])
    | HealthTick now => healthTick h now
    | RestartTimerFired => restartTimerFired h
    end in
  (syncHealth h h', out).

Fixpoint runEvents (h : Hook) (events : list Event) : Hook * list Output :=
  match events with
  | [] => (h, [])
  | e :: rest =>
      let '(h1, out1) := handle h e in
      let '(h2, out2) := runEvents h1 rest in
      (h2, (out1 ++ out2)%list)
  end.

Definition isStart (e : Event) : bool :=
  match e with StartTracking _ _ => true | _ => false end.

Definition eventClock (e : Event) : option Z :=
  match e with
  | StartTracking _ now | GazeSample _ _ now | CalibrationDone now
  | HealthTick now => Some now
  | _ => None
  end.

End Handlers.

End Session.

(** * Properties of the tracking session *)

Section SessionFacts.
Import GazeFilter Session.
Context {M : MathLib}.
Variable webgazer : bool.

(** Tracking is stopped and nothing is left pending. *)
Definition halted (h : Hook) : Prop :=
  isManuallyStopped (tracker h) = true
  /\ filter (tracker h) = resetSmoothingState
  /\ restarting h = false
  /\ restartTimer h = false
  /\ healthInterval h = false.

(** The events that stop a session: the stop button and a failed
    [webgazer.begin()]. *)
Definition stops (e : Event) : bool :=
  match e with
  | StopTracking | BeginRejected _ _ => true
  | _ => false
  end.

Lemma syncHealth_halted (old new : Hook) :
  halted new -> halted (syncHealth old new).
Proof.
  intros (H1 & H2 & H3 & H4 & H5). unfold syncHealth.
  case_bool_decide; [done|].
  unfold halted, healthEffect. cbn. by rewrite H1.
Qed.

Lemma halt_halted (h : Hook) (s : TrackingStatus) (e : option string)
    (g : option GazeData) :
  halted (halt h s e g).
Proof. by repeat split. Qed.

Lemma stops_halted (h : Hook) (e : Event) :
  stops e = true -> halted (fst (handle webgazer h e)).
Proof.
  destruct e; try discriminate; intros _; unfold handle; cbn [fst];
    apply syncHealth_halted.
  - apply halt_halted.
  - unfold beginRejected.
    destruct (String.eqb name "NotAllowedError"); apply halt_halted.
Qed.

Lemma handleGazeData_stopped (tr : Tracker)
    (prediction : option WebGazerPrediction) (elapsedTime : float) (now : Z) :
  isManuallyStopped tr = true ->
  handleGazeData tr prediction elapsedTime now = (tr, None).
Proof.
  intros Hs. unfold handleGazeData.
  destruct prediction; [|done]. by rewrite Hs.
Qed.

Lemma withTracker_same (h : Hook) : withTracker h (tracker h) = h.
Proof. by destruct h. Qed.

Lemma handle_halted (h : Hook) (e : Event) :
  halted h -> isStart e = false ->
  halted (fst (handle webgazer h e)) /\ snd (handle webgazer h e) = [].
Proof.
  intros Hh He. pose proof Hh as (H1 & H2 & H3 & H4 & H5).
  destruct e; try discriminate; unfold handle.
  - split; [|done]. apply syncHealth_halted, halt_halted.
  - split; [|done]. apply syncHealth_halted. unfold beginResolved.
    destruct (hasCalibrated h); [|done]. by repeat split.
  - split; [|done]. apply syncHealth_halted. unfold beginRejected.
    destruct (String.eqb name "NotAllowedError"); apply halt_halted.
  - rewrite (handleGazeData_stopped _ _ _ _ H1), withTracker_same.
    split; [|done]. by apply syncHealth_halted.
  - split; [|done]. apply syncHealth_halted. by repeat split.
  - unfold healthTick. rewrite H5. split; [|done].
    by apply syncHealth_halted.
  - unfold restartTimerFired. rewrite H4. split; [|done].
    by apply syncHealth_halted.
Qed.

Lemma runEvents_halted (events : list Event) :
  forall h,
    halted h -> forallb (fun e => negb (isStart e)) events = true ->
    halted (fst (runEvents webgazer h events))
    /\ snd (runEvents webgazer h events) = [].
Proof.
  induction events as [|e rest IH]; intros h Hh Hall; [done|].
  cbn [forallb] in Hall. apply andb_true_iff in Hall as [He Hrest].
  apply negb_true_iff in He. cbn [runEvents].
  destruct (handle_halted h e Hh He) as [Hh1 Hout1].
  destruct (handle webgazer h e) as [h1 out1]. cbn [fst snd] in *.
  destruct (IH h1 Hh1 Hrest) as [Hh2 Hout2].
  destruct (runEvents webgazer h1 rest) as [h2 out2]. cbn [fst snd] in *.
  by subst.
Qed.

(** Once tracking was stopped, by the stop button or by a failed start,
    nothing is published and the tracker is neither paused nor resumed,
    whatever tracker callbacks, timers, promise outcomes and calibration
    ends arrive, until [startTracking] is called; all along the manual
    stop flag stays raised, the smoothing state stays empty and no timer
    is pending. *)
Theorem stopped_session_is_silent (h0 : Hook) (stop : Event)
    (events : list Event) :
  stops stop = true ->
  forallb (fun e => negb (isStart e)) events = true ->
  let h := fst (handle webgazer h0 stop) in
  snd (runEvents webgazer h events) = []
  /\ halted (fst (runEvents webgazer h events)).
Proof.
  intros Hstop Hall. cbv zeta.
  destruct (runEvents_halted events _ (stops_halted h0 stop Hstop) Hall).
  done.
Qed.

(** ** Timers and flags in every reachable state *)

Definition timersInv (h : Hook) : Prop :=
  restarting h = restartTimer h
  /\ (isManuallyStopped (tracker h) = true ->
      restartTimer h = false
      /\ healthInterval h = false
      /\ filter (tracker h) = resetSmoothingState).

Lemma syncHealth_timersInv (old new : Hook) :
  timersInv new -> timersInv (syncHealth old new).
Proof.
  intros [H1 H2]. unfold syncHealth. case_bool_decide; [done|].
  split; [exact H1|]. cbn. intros Hs. rewrite Hs.
  destruct (H2 Hs) as (? & _ & ?). done.
Qed.

Lemma halted_timersInv (h : Hook) : halted h -> timersInv h.
Proof. intros (H1 & H2 & H3 & H4 & H5). split; [congruence|done]. Qed.

Lemma handleGazeData_flags (tr : Tracker)
    (prediction : option WebGazerPrediction) (elapsedTime : float) (now : Z) :
  handleGazeData tr prediction elapsedTime now = (tr, None)
  \/ isManuallyStopped (fst (handleGazeData tr prediction elapsedTime now))
     = false.
Proof.
  unfold handleGazeData. destruct prediction as [p|]; [|by left].
  destruct (isManuallyStopped tr); [by left|].
  destruct (negb (Number_isFinite (predX p))
            || negb (Number_isFinite (predY p))); [by left|].
  right. by destruct (computeFilteredGazePoint _ _ _ _).
Qed.

Lemma handle_timersInv (h : Hook) (e : Event) :
  timersInv h -> timersInv (fst (handle webgazer h e)).
Proof.
  intros Hinv. pose proof Hinv as [H1 H2].
  destruct e; unfold handle.
  - cbn [fst]. apply syncHealth_timersInv. unfold startTracking.
    destruct (negb webgazer); [done|].
    destruct configError; [apply halted_timersInv, halt_halted|].
    split; [done|]. cbn. discriminate.
  - cbn [fst]. apply syncHealth_timersInv, halted_timersInv, halt_halted.
  - cbn [fst]. apply syncHealth_timersInv. unfold beginResolved.
    destruct (hasCalibrated h); done.
  - cbn [fst]. apply syncHealth_timersInv, halted_timersInv.
    unfold beginRejected.
    destruct (String.eqb name "NotAllowedError"); apply halt_halted.
  - destruct (handleGazeData_flags (tracker h) prediction elapsedTime now)
      as [Hsame|Hrun].
    + rewrite Hsame, withTracker_same. cbn [fst].
      by apply syncHealth_timersInv.
    + destruct (handleGazeData (tracker h) prediction elapsedTime now)
        as [tr out]. cbn [fst] in *. apply syncHealth_timersInv.
      split; [exact H1|]. cbn. congruence.
  - cbn [fst]. apply syncHealth_timersInv. split; [exact H1|].
    cbn. intros Hs. destruct (H2 Hs) as (? & ? & ?). done.
  - unfold healthTick, restartTracking.
    destruct (healthInterval h); [|by apply syncHealth_timersInv].
    destruct (isManuallyStopped (tracker h)) eqn:Hs;
      [by apply syncHealth_timersInv|].
    destruct (lastResult (tracker h)) as [lr|];
      [|by apply syncHealth_timersInv].
    destruct (lr =? 0); [by apply syncHealth_timersInv|].
    destruct (AUTO_RESTART_THRESHOLD <? now - lr);
      [|by apply syncHealth_timersInv].
    rewrite orb_false_r.
    destruct (negb webgazer); [by apply syncHealth_timersInv|].
    destruct (restarting h); [by apply syncHealth_timersInv|].
    cbn [fst]. apply syncHealth_timersInv. split; [done|].
    cbn. congruence.
  - unfold restartTimerFired.
    destruct (restartTimer h) eqn:Ht; [|by apply syncHealth_timersInv].
    cbn [fst]. apply syncHealth_timersInv. split; [done|].
    cbn. intros Hs. destruct (H2 Hs) as (? & ? & ?). done.
Qed.

(** In every state the hook can reach from its mount, the in-flight
    restart flag is raised exactly while the restart timeout is pending,
    and while tracking is manually stopped no restart timeout and no
    health-check interval is pending and the smoothing state is empty. *)
Theorem timers_never_outlive_a_stop (events : list Event) :
  timersInv (fst (runEvents webgazer mounted events)).
Proof.
  assert (Hgen : forall h, timersInv h ->
                           timersInv (fst (runEvents webgazer h events))).
  { induction events as [|e rest IH]; intros h Hinv; [exact Hinv|].
    cbn [runEvents]. pose proof (handle_timersInv h e Hinv) as H1.
    destruct (handle webgazer h e) as [h1 out1]. cbn [fst] in H1.
    pose proof (IH h1 H1) as H2.
    by destruct (runEvents webgazer h1 rest) as [h2 out2]. }
  apply Hgen. split; [reflexivity|]. by intros _.
Qed.

End SessionFacts.

(** ** The automatic restart *)

Section RestartFacts.
Import GazeFilter Session.
Context {M : MathLib}.
Variable webgazer : bool.

(** The last result, when there is one, is not older than [l]. *)
Definition freshSince (l : Z) (h : Hook) : Prop :=
  forall lr, lastResult (tracker h) = Some lr -> l <= lr.

(** The time of the last result after the event [e], [l] being the one
    before it: a start, the end of a calibration and a gaze sample with
    finite coordinates record a result at their clock reading. *)
Definition window (l : Z) (e : Event) : Z :=
  match e with
  | StartTracking _ now | CalibrationDone now => now
  | GazeSample (Some p) _ now =>
      if Number_isFinite (predX p) && Number_isFinite (predY p) then now
      else l
  | _ => l
  end.

(** Every health tick comes at most [AUTO_RESTART_THRESHOLD] after the
    latest result recorded before it, [l] being the one at the start. *)
Fixpoint keptFresh (l : Z) (events : list Event) : bool :=
  match events with
  | [] => true
  | e :: rest =>
      match e with
      | HealthTick now => now <=? l + AUTO_RESTART_THRESHOLD
      | _ => true
      end
      && keptFresh (window l e) rest
  end.

(** No restart can be due: the tracker is not loaded, or tracking is
    stopped, or the last result is not older than [l]. *)
Definition restartNotDue (l : Z) (h : Hook) : Prop :=
  webgazer = false
  \/ isManuallyStopped (tracker h) = true
  \/ freshSince l h.

Lemma syncHealth_lastResult (old new : Hook) :
  lastResult (tracker (syncHealth old new)) = lastResult (tracker new).
Proof. unfold syncHealth. by case_bool_decide. Qed.

Lemma syncHealth_stopped (old new : Hook) :
  isManuallyStopped (tracker (syncHealth old new))
  = isManuallyStopped (tracker new).
Proof. unfold syncHealth. by case_bool_decide. Qed.

Lemma restartNotDue_sync (l : Z) (old new : Hook) :
  restartNotDue l new -> restartNotDue l (syncHealth old new).
Proof.
  unfold restartNotDue, freshSince.
  by rewrite syncHealth_lastResult, syncHealth_stopped.
Qed.

Lemma restartNotDue_tracker (l : Z) (h h' : Hook) :
  tracker h' = tracker h -> restartNotDue l h -> restartNotDue l h'.
Proof. unfold restartNotDue, freshSince. by intros ->. Qed.

Lemma restartNotDue_recorded (l : Z) (h : Hook) :
  lastResult (tracker h) = Some l -> restartNotDue l h.
Proof.
  intros Hl. right. right. intros lr. rewrite Hl. intros [= <-]. lia.
Qed.

(** The gaze callback: nothing changes, or tracking runs and the result
    is recorded at the clock reading. *)
Lemma handleGazeData_records (tr : Tracker)
    (prediction : option WebGazerPrediction) (elapsedTime : float) (now : Z) :
  fst (handleGazeData tr prediction elapsedTime now) = tr
  /\ (isManuallyStopped tr = true
      \/ match prediction with
         | Some p =>
             Number_isFinite (predX p) && Number_isFinite (predY p) = false
         | None => True
         end)
  \/ lastResult (fst (handleGazeData tr prediction elapsedTime now)) = Some now
     /\ exists p, prediction = Some p
                  /\ Number_isFinite (predX p) && Number_isFinite (predY p)
                     = true.
Proof.
  unfold handleGazeData. destruct prediction as [p|]; [|left; by split; [|right]].
  destruct (isManuallyStopped tr); [left; split; [done|by left]|].
  destruct (Number_isFinite (predX p)) eqn:Hx,
           (Number_isFinite (predY p)) eqn:Hy; cbn;
    try (left; split; [done|by right]).
  right. destruct (computeFilteredGazePoint _ _ _ _). split; [done|].
  exists p. by rewrite Hx, Hy.
Qed.

Lemma handle_restartNotDue (l : Z) (h : Hook) (e : Event) :
  restartNotDue l h ->
  match e with
  | HealthTick now => now <= l + AUTO_RESTART_THRESHOLD
  | _ => True
  end ->
  restartNotDue (window l e) (fst (handle webgazer h e))
  /\ Forall (fun o => o <> Paused) (snd (handle webgazer h e)).
Proof.
  intros Hinv He. destruct e; unfold handle; cbn [window fst snd].
  - split; [|by constructor]. apply restartNotDue_sync.
    unfold startTracking.
    destruct webgazer eqn:Hw; cbn [negb]; [|by left].
    destruct configError; [right; by left|].
    by apply restartNotDue_recorded.
  - split; [|by constructor]. apply restartNotDue_sync. right. by left.
  - split; [|by constructor]. apply restartNotDue_sync.
    unfold beginResolved. by destruct (hasCalibrated h).
  - split; [|by constructor]. apply restartNotDue_sync. right. left.
    unfold beginRejected. by destruct (String.eqb name "NotAllowedError").
  - pose proof (handleGazeData_records (tracker h) prediction elapsedTime now)
      as Hrec.
    destruct (handleGazeData (tracker h) prediction elapsedTime now)
      as [tr out]. cbn [fst snd] in *. split.
    + apply restartNotDue_sync.
      destruct Hrec as [[-> Hwhy]|[Hlr (p & -> & Hfin)]].
      * destruct Hwhy as [Hstop|Hdrop].
        -- right. by left.
        -- destruct prediction as [p|];
             [rewrite Hdrop|]; by apply (restartNotDue_tracker l h).
      * rewrite Hfin. by apply restartNotDue_recorded.
    + destruct out; repeat constructor; discriminate.
  - split; [|by constructor]. apply restartNotDue_sync.
    by apply restartNotDue_recorded.
  - unfold healthTick.
    destruct (healthInterval h);
      [|split; [by apply restartNotDue_sync|by constructor]].
    destruct (isManuallyStopped (tracker h)) eqn:Hstop;
      [split; [by apply restartNotDue_sync|by constructor]|].
    destruct (lastResult (tracker h)) as [lr|] eqn:Hlr;
      [|split; [by apply restartNotDue_sync|by constructor]].
    destruct (lr =? 0);
      [split; [by apply restartNotDue_sync|by constructor]|].
    destruct Hinv as [Hw|[Hs|Hf]].
    + assert (Hsame : restartTracking webgazer h now = (h, []))
        by (unfold restartTracking; by rewrite Hw).
      destruct (AUTO_RESTART_THRESHOLD <? now - lr); rewrite ?Hsame;
        (split; [apply restartNotDue_sync; by left|by constructor]).
    + congruence.
    + pose proof (Hf lr Hlr) as Hlo.
      assert ((AUTO_RESTART_THRESHOLD <? now - lr) = false) as ->
        by (apply Z.ltb_ge; lia).
      split; [apply restartNotDue_sync; right; by right|by constructor].
  - unfold restartTimerFired.
    destruct (restartTimer h);
      [|split; [by apply restartNotDue_sync|by constructor]].
    split; [apply restartNotDue_sync;
            by apply (restartNotDue_tracker l h)|].
    destruct webgazer; repeat constructor; discriminate.
Qed.

(** As long as every health tick comes at most [AUTO_RESTART_THRESHOLD]
    after the latest result recorded before it (a start, the end of a
    calibration or a gaze sample with finite coordinates; at first the
    last result of the hook), the health check never pauses the tracker,
    however long the session lasts and whatever else happens in
    between. *)
Theorem no_restart_while_fresh (h : Hook) (l : Z) (events : list Event) :
  freshSince l h ->
  keptFresh l events = true ->
  Forall (fun o => o <> Paused) (snd (runEvents webgazer h events)).
Proof.
  intros Hf Hall.
  assert (Hinv : restartNotDue l h) by (right; by right).
  clear Hf. revert l h Hinv Hall.
  induction events as [|e rest IH]; intros l h Hinv Hall; [constructor|].
  cbn [keptFresh] in Hall. apply andb_true_iff in Hall as [He Hrest].
  assert (Htick : match e with
                  | HealthTick now => now <= l + AUTO_RESTART_THRESHOLD
                  | _ => True
                  end) by (destruct e; try exact I; lia).
  cbn [runEvents].
  destruct (handle_restartNotDue l h e Hinv Htick) as [Hinv1 Ho1].
  destruct (handle webgazer h e) as [h1 out1]. cbn [fst snd] in *.
  specialize (IH _ h1 Hinv1 Hrest).
  destruct (runEvents webgazer h1 rest) as [h2 out2]. cbn [snd] in *.
  apply Forall_app. by split.
Qed.

Definition isHealthTick (e : Event) : bool :=
  match e with HealthTick _ => true | _ => false end.

(** A restart in flight: tracking runs, the restart flag is raised and
    its timeout is pending. *)
Definition inFlight (h : Hook) : Prop :=
  isManuallyStopped (tracker h) = false
  /\ restarting h = true
  /\ restartTimer h = true.

Lemma healthTick_inFlight (h : Hook) (now : Z) :
  inFlight h ->
  inFlight (fst (handle webgazer h (HealthTick now)))
  /\ snd (handle webgazer h (HealthTick now)) = [].
Proof.
  intros (H1 & H2 & H3).
  assert (Hsame : healthTick webgazer h now = (h, [])).
  { unfold healthTick, restartTracking. rewrite H1, H2, orb_false_r.
    destruct (healthInterval h); [|done].
    destruct (lastResult (tracker h)) as [lr|]; [|done].
    destruct (lr =? 0); [done|].
    destruct (AUTO_RESTART_THRESHOLD <? now - lr); [|done].
    by destruct (negb webgazer). }
  unfold handle. rewrite Hsame. cbn [fst snd]. split; [|done].
  unfold syncHealth. rewrite bool_decide_eq_true_2 by done. by repeat split.
Qed.

Lemma ticks_inFlight (ticks : list Event) :
  forall h,
    inFlight h -> forallb isHealthTick ticks = true ->
    inFlight (fst (runEvents webgazer h ticks))
    /\ snd (runEvents webgazer h ticks) = [].
Proof.
  induction ticks as [|e rest IH]; intros h Hh Hall; [done|].
  cbn [forallb] in Hall. apply andb_true_iff in Hall as [He Hrest].
  destruct e; try discriminate. cbn [runEvents].
  destruct (healthTick_inFlight h now Hh) as [Hh1 Ho1].
  destruct (handle webgazer h (HealthTick now)) as [h1 out1].
  cbn [fst snd] in *.
  destruct (IH h1 Hh1 Hrest) as [Hh2 Ho2].
  destruct (runEvents webgazer h1 rest) as [h2 out2]. cbn [fst snd] in *.
  by subst.
Qed.

End RestartFacts.

Section RestartCycle.
Import GazeFilter Session.
Context {M : MathLib}.

(** With the tracker loaded, a health tick that finds the last result
    older than [AUTO_RESTART_THRESHOLD] while tracking runs and no
    restart is in flight pauses the tracker once; however many health
    ticks follow before the restart timeout fires, and however late they
    are, none pauses it again; the timeout then resumes it once and
    lowers the in-flight flag. *)
Theorem restart_is_single_flight (h : Hook) (lr now : Z)
    (ticks : list Event) :
  healthInterval h = true ->
  isManuallyStopped (tracker h) = false ->
  restarting h = false ->
  lastResult (tracker h) = Some lr -> lr <> 0 ->
  AUTO_RESTART_THRESHOLD < now - lr ->
  forallb isHealthTick ticks = true ->
  let r := runEvents true h (HealthTick now :: ticks ++ [RestartTimerFired]) in
  snd r = [Paused; Resumed]
  /\ restarting (fst r) = false
  /\ restartTimer (fst r) = false
  /\ lastResult (tracker (fst r)) = Some now
  /\ status (tracker (fst r)) = reconnecting.
Proof.
  intros Hi Hs Hr Hl Hnz Hold Hticks. cbv zeta.
  assert (Hfirst : healthTick true h now
                   = restartTracking true h now).
  { unfold healthTick. rewrite Hi, Hs, Hl.
    apply Z.eqb_neq in Hnz. rewrite Hnz.
    apply Z.ltb_lt in Hold. by rewrite Hold. }
  assert (Hstep : exists h1,
             handle true h (HealthTick now) = (h1, [Paused])
             /\ inFlight h1
             /\ lastResult (tracker h1) = Some now
             /\ status (tracker h1) = reconnecting).
  { eexists. split.
    - unfold handle. rewrite Hfirst. unfold restartTracking.
      rewrite Hs, Hr. cbn [negb orb]. reflexivity.
    - unfold syncHealth. case_bool_decide; by repeat split. }
  destruct Hstep as (h1 & Hstep & Hflight & Hlr1).
  cbn [runEvents]. rewrite Hstep.
  assert (Hgen : forall l h',
             inFlight h' ->
             lastResult (tracker h') = Some now
             /\ status (tracker h') = reconnecting ->
             forallb isHealthTick l = true ->
             let r := runEvents true h' (l ++ [RestartTimerFired]) in
             snd r = [Resumed]
             /\ restarting (fst r) = false
             /\ restartTimer (fst r) = false
             /\ lastResult (tracker (fst r)) = Some now
             /\ status (tracker (fst r)) = reconnecting).
  { induction l as [|e rest IH]; intros h' Hf' [Hl' Hst'] Hall; cbv zeta.
    - destruct Hf' as (F1 & F2 & F3). cbn [app runEvents].
      unfold handle, restartTimerFired. rewrite F3. cbn [fst snd].
      unfold syncHealth. rewrite bool_decide_eq_true_2 by done.
      by repeat split.
    - cbn [forallb] in Hall. apply andb_true_iff in Hall as [He Hrest].
      destruct e; try discriminate. cbn [app runEvents].
      pose proof (healthTick_inFlight true h' now0 Hf') as [Hf1 Ho1].
      assert (Hsame : handle true h' (HealthTick now0) = (h', [])).
      { destruct Hf' as (F1 & F2 & F3).
        unfold handle, healthTick, restartTracking.
        rewrite F1, F2. cbn [negb orb].
        assert (Hsync : syncHealth h' h' = h')
          by (unfold syncHealth; by rewrite bool_decide_eq_true_2).
        destruct (healthInterval h'); [|by rewrite Hsync].
        rewrite Hl'. destruct (now =? 0); [by rewrite Hsync|].
        destruct (AUTO_RESTART_THRESHOLD <? now0 - now); by rewrite Hsync. }
      rewrite Hsame.
      specialize (IH h' Hf' (conj Hl' Hst') Hrest). cbv zeta in IH.
      destruct (runEvents true h' (rest ++ [RestartTimerFired]))
        as [h2 out2]. cbn [fst snd app] in *. exact IH. }
  specialize (Hgen ticks h1 Hflight Hlr1 Hticks). cbv zeta in Hgen.
  destruct (runEvents true h1 (ticks ++ [RestartTimerFired])) as [h2 out2].
  cbn [fst snd app] in *. destruct Hgen as (-> & ? & ? & ? & ?).
  by repeat split.
Qed.

End RestartCycle.

(** ** The history holds finite samples only *)

Section FiniteHistory.
Import GazeFilter Session.
Context {M : MathLib}.
Variable webgazer : bool.








End FiniteHistory.

(** * The key cipher (utils/crypto.ts)

    A [Uint8Array] is a list of bytes and a JavaScript string the list of
    its UTF-16 code units.  [TextEncoder], [TextDecoder] and the SHA-256
    digest belong to the platform and are parameters; [await] is
    sequencing. *)

Module Crypto.

#[local] Open Scope N_scope.

Definition Uint8Array := list Byte.byte.
Definition JSString := list N.

(** Storing a number into a [Uint8Array]: its value modulo 256. *)
Definition toUint8 (n : N) : Byte.byte :=
  default Byte.x00 (Byte.of_N (n mod 256)).

(** [xor]: it throws when the lengths differ. *)
Definition xor (data1 data2 : Uint8Array) : string + Uint8Array :=
  if negb (length data1 =? length data2)%nat
  then inl "Input arrays must have the same length"%string
  else inr (imap (fun i d1 =>
                    toUint8 (N.lxor (Byte.to_N d1)
                               (match data2 !! i with
                                | Some d2 => Byte.to_N d2
                                | None => 0
                                end)))
                 data1).

(** [passwordArray[i % passwordArray.length]] as an operand of [^]: with
    an empty password the index is NaN, the element [undefined] and the
    operand 0. *)
Definition keyAt (passwordArray : Uint8Array) (i : nat) : N :=
  match passwordArray !! (i mod length passwordArray)%nat with
  | Some p => Byte.to_N p
  | None => 0
  end.

Definition xorBytes (dataArray passwordArray : Uint8Array) : Uint8Array :=
  imap (fun i d => toUint8 (N.lxor (Byte.to_N d) (keyAt passwordArray i)))
       dataArray.

(** The digits of [byte.toString(16).padStart(2, '0')]. *)
Definition hexDigit (n : N) : N := if n <? 10 then 48 + n else 87 + n.

Definition byteToHex (b : Byte.byte) : JSString :=
  let n := Byte.to_N b in
  let digits :=
    if n <? 16 then [hexDigit n] else [hexDigit (n / 16); hexDigit (n mod 16)] in
  (replicate (2 - length digits) 48 ++ digits)%list.

(** [parseInt(s, 16)]: leading white space and a sign are skipped, then
    "0x" or "0X"; the value is that of the longest run of hexadecimal
    digits, and NaN, here [None], when there is none. *)
Definition isWhiteSpace (c : N) : bool :=
  (c =? 9) || (c =? 10) || (c =? 11) || (c =? 12) || (c =? 13) || (c =? 32)
  || (c =? 160) || (c =? 5760) || ((8192 <=? c) && (c <=? 8202))
  || (c =? 8232) || (c =? 8233) || (c =? 8239) || (c =? 8287) || (c =? 12288)
  || (c =? 65279).

Definition hexValue (c : N) : option N :=
  if (48 <=? c) && (c <=? 57) then Some (c - 48)
  else if (97 <=? c) && (c <=? 102) then Some (c - 87)
  else if (65 <=? c) && (c <=? 70) then Some (c - 55)
  else None.

Fixpoint skipWhiteSpace (s : JSString) : JSString :=
  match s with
  | c :: rest => if isWhiteSpace c then skipWhiteSpace rest else s
  | [] => []
  end.

(** The digits read so far and their value. *)
Fixpoint readHex (s : JSString) (acc : option N) : option N :=
  match s with
  | c :: rest =>
      match hexValue c with
      | Some v => readHex rest (Some (16 * default 0 acc + v))
      | None => acc
      end
  | [] => acc
  end.

Definition parseInt16 (s : JSString) : option Z :=
  let s1 := skipWhiteSpace s in
  let '(negative, s2) :=
    match s1 with
    | 45 :: rest => (true, rest)
    | 43 :: rest => (false, rest)
    | _ => (false, s1)
    end in
  let s3 :=
    match s2 with
    | 48 :: 120 :: rest => rest
    | 48 :: 88 :: rest => rest
    | _ => s2
    end in
  match readHex s3 None with
  | Some v => Some (if negative then (- Z.of_N v)%Z else Z.of_N v)
  | None => None
  end.

(** Storing the result of [parseInt] into a [Uint8Array]. *)
Definition storeParsed (v : option Z) : Byte.byte :=
  match v with
  | Some z => toUint8 (Z.to_N (z mod 256)%Z)
  | None => Byte.x00
  end.

(** The substrings [hexString.substring(i, i + 2)] for i = 0, 2, 4, ... *)
Fixpoint substrings2 (s : JSString) : list JSString :=
  match s with
  | a :: b :: rest => [a; b] :: substrings2 rest
  | [a] => [[a]]
  | [] => []
  end.

(** The loop of [decryptFromHex]: the array has [hexString.length / 2]
    elements, rounded down, and a write past its end is ignored. *)
Definition hexToBytes (hexString : JSString) : Uint8Array :=
  take (length hexString / 2)%nat
       (map (fun sub => storeParsed (parseInt16 sub)) (substrings2 hexString)).

Definition bytesToHex (bytes : Uint8Array) : JSString :=
  concat (map byteToHex bytes).

(** An argument of [xorCipher]: a [Uint8Array] or a string. *)
Inductive BytesOrString :=
| Bytes (b : Uint8Array)
| Str (s : JSString).

Section Platform.

(** [new TextEncoder().encode], [new TextDecoder().decode] and
    [crypto.subtle.digest("SHA-256", ...)] on the encoded string. *)
Variable fromString : JSString -> Uint8Array.
Variable toString : Uint8Array -> JSString.
Variable sha256 : JSString -> Uint8Array.

Definition asBytes (v : BytesOrString) : Uint8Array :=
  match v with
  | Bytes b => b
  | Str s => fromString s
  end.

Definition xorCipher (data password : BytesOrString) : Uint8Array :=
  xorBytes (asBytes data) (asBytes password).

Definition encryptToHex (text password : JSString) : JSString :=
  bytesToHex (xorCipher (Str text) (Bytes (sha256 password))).

Definition decryptFromHex (hexString password : JSString) : JSString :=
  toString (xorCipher (Bytes (hexToBytes hexString)) (Bytes (sha256 password))).

End Platform.

End Crypto.

(** * Properties of the key cipher *)

Section CryptoFacts.

Import Crypto.

#[local] Open Scope N_scope.

(** The characters [encryptToHex] writes: 0-9 and a-f. *)
Definition isLowerHex (c : N) : bool :=
  ((48 <=? c) && (c <=? 57)) || ((97 <=? c) && (c <=? 102)).

Lemma toUint8_to_N (b : Byte.byte) : toUint8 (Byte.to_N b) = b.
Proof.
unfold toUint8.
pose proof (Byte.to_N_bounded b) as Hb.
rewrite N.mod_small by lia.
by rewrite Byte.of_to_N.
Qed.

Lemma to_N_toUint8 (n : N) : Byte.to_N (toUint8 n) = n mod 256.
Proof.
unfold toUint8.
assert (Hlt : n mod 256 < 256) by (apply N.mod_lt; lia).
destruct (Byte.of_N (n mod 256)) as [b|] eqn:Hb.
- cbn. by apply Byte.to_of_N.
- apply Byte.of_N_None_iff in Hb. lia.
Qed.

Lemma lxor_below (a b n : N) : a < 2 ^ n -> b < 2 ^ n -> N.lxor a b < 2 ^ n.
Proof.
intros Ha Hb.
destruct (N.eq_dec (N.lxor a b) 0) as [->|Hx].
- apply N.neq_0_lt_0. by apply N.pow_nonzero.
- apply N.log2_lt_pow2; [lia|].
  eapply N.le_lt_trans; [apply N.log2_lxor|].
  apply N.max_lub_lt.
  + destruct (N.eq_dec a 0) as [->|Ha0].
    * cbn. destruct (N.eq_dec n 0) as [->|Hn]; [|lia].
      exfalso. cbn in Hb. assert (b = 0) by lia. subst b. by cbn in Hx.
    * apply N.log2_lt_pow2; [lia|done].
  + destruct (N.eq_dec b 0) as [->|Hb0].
    * cbn. destruct (N.eq_dec n 0) as [->|Hn]; [|lia].
      exfalso. cbn in Ha. assert (a = 0) by lia. subst a. by cbn in Hx.
    * apply N.log2_lt_pow2; [lia|done].
Qed.

Lemma lxor_byte (a k : N) : a <= 255 -> k <= 255 -> N.lxor a k mod 256 = N.lxor a k.
Proof.
intros Ha Hk.
apply N.mod_small.
change 256 with (2 ^ 8).
apply lxor_below; change (2 ^ 8) with 256; lia.
Qed.

(** Masking a byte twice with the same key byte gives it back. *)
Lemma mask_twice (d : Byte.byte) (k : N) :
  k <= 255 ->
  toUint8 (N.lxor (Byte.to_N (toUint8 (N.lxor (Byte.to_N d) k))) k) = d.
Proof.
intros Hk.
pose proof (Byte.to_N_bounded d) as Hd.
rewrite to_N_toUint8, lxor_byte by done.
rewrite N.lxor_assoc, N.lxor_nilpotent, N.lxor_0_r.
apply toUint8_to_N.
Qed.

Lemma keyAt_bounded (passwordArray : Uint8Array) (i : nat) :
  keyAt passwordArray i <= 255.
Proof.
unfold keyAt.
destruct (passwordArray !! _); [apply Byte.to_N_bounded|lia].
Qed.

Lemma xorBytes_length (dataArray passwordArray : Uint8Array) :
  length (xorBytes dataArray passwordArray) = length dataArray.
Proof. apply length_imap. Qed.

Lemma xorBytes_twice (dataArray passwordArray : Uint8Array) :
  xorBytes (xorBytes dataArray passwordArray) passwordArray = dataArray.
Proof.
unfold xorBytes.
apply list_eq. intros i.
rewrite !list_lookup_imap.
destruct (_ !! i) as [d|]; [|done].
cbn. f_equal. apply mask_twice, keyAt_bounded.
Qed.

Lemma xorBytes_empty_key (dataArray : Uint8Array) :
  xorBytes dataArray [] = dataArray.
Proof.
unfold xorBytes.
apply list_eq. intros i.
rewrite list_lookup_imap.
destruct (_ !! i) as [d|]; [|done].
cbn. f_equal.
change (keyAt [] i) with 0. rewrite N.lxor_0_r.
apply toUint8_to_N.
Qed.

(** Every byte is written as two lower-case digits that read back as it. *)
Definition readsBack (b : Byte.byte) : bool :=
  match byteToHex b with
  | [hi; lo] =>
      Byte.eqb (storeParsed (parseInt16 [hi; lo])) b
      && isLowerHex hi && isLowerHex lo
  | _ => false
  end.

Lemma readsBack_all (b : Byte.byte) : readsBack b = true.
Proof. destruct b; vm_compute; reflexivity. Qed.

Lemma byteToHex_reads_back (b : Byte.byte) :
  exists hi lo,
    byteToHex b = [hi; lo]
    /\ storeParsed (parseInt16 [hi; lo]) = b
    /\ isLowerHex hi = true /\ isLowerHex lo = true.
Proof.
pose proof (readsBack_all b) as H. unfold readsBack in H.
destruct (byteToHex b) as [|hi [|lo [|? ?]]]; try discriminate H.
apply andb_prop in H as [H Hlo]. apply andb_prop in H as [Hb Hhi].
exists hi, lo. repeat split; try done.
by apply Byte.byte_dec_bl.
Qed.

Lemma hexToBytes_pair (hi lo : N) (rest : JSString) :
  hexToBytes (hi :: lo :: rest)
  = storeParsed (parseInt16 [hi; lo]) :: hexToBytes rest.
Proof.
unfold hexToBytes.
cbn [substrings2 map length].
replace (S (S (length rest)) / 2)%nat with (S (length rest / 2))%nat; [done|].
change (S (S (length rest))) with (1 * 2 + length rest)%nat.
rewrite Nat.add_comm, Nat.div_add by lia. lia.
Qed.

Lemma bytesToHex_cons (b : Byte.byte) (bytes : Uint8Array) :
  bytesToHex (b :: bytes) = (byteToHex b ++ bytesToHex bytes)%list.
Proof. done. Qed.

Lemma hexToBytes_bytesToHex_app (bytes : Uint8Array) (rest : JSString) :
  hexToBytes (bytesToHex bytes ++ rest) = (bytes ++ hexToBytes rest)%list.
Proof.
induction bytes as [|b bytes IH]; [done|].
rewrite bytesToHex_cons.
destruct (byteToHex_reads_back b) as (hi & lo & -> & Hb & _).
cbn [app]. rewrite hexToBytes_pair, Hb. by rewrite IH.
Qed.

Section Platform.

Variable fromString : JSString -> Uint8Array.
Variable toString : Uint8Array -> JSString.
Variable sha256 : JSString -> Uint8Array.

#[local] Abbreviation xorCipher := (xorCipher fromString).
#[local] Abbreviation encryptToHex := (encryptToHex fromString sha256).
#[local] Abbreviation decryptFromHex := (decryptFromHex fromString toString sha256).

(** [xorCipher] is its own inverse: the result has as many bytes as
    the data, and ciphering it again with the same password, of any
    length and given as bytes or as a string, gives the bytes of the data
    back. *)
Theorem xorCipher_undoes_itself (data password : BytesOrString) :
  length (xorCipher data password) = length (asBytes fromString data)
  /\ xorCipher (Bytes (xorCipher data password)) password
     = asBytes fromString data.
Proof.
unfold Crypto.xorCipher. cbn [asBytes].
split; [apply xorBytes_length|apply xorBytes_twice].
Qed.

(** With an empty password [xorCipher] leaves the data as it is:
    the index [i % 0] is NaN, the element read there is undefined and the
    exclusive or with it changes nothing. *)
Theorem empty_password_leaves_data (data : BytesOrString) :
  xorCipher data (Bytes []) = asBytes fromString data.
Proof. apply xorBytes_empty_key. Qed.

(** [xor] throws exactly when the two arrays differ in length;
    otherwise its result has their length, does not depend on the order
    of the arguments, and combined with the second array again gives the
    first. *)
Theorem xor_undoes_itself (data1 data2 : Uint8Array) :
  match xor data1 data2 with
  | inl _ => length data1 <> length data2
  | inr result =>
      length data1 = length data2
      /\ length result = length data1
      /\ xor data2 data1 = inr result
      /\ xor result data2 = inr data1
  end.
Proof.
unfold xor.
destruct (Nat.eqb_spec (length data1) (length data2)) as [Hlen|Hlen]; [|done].
cbn [negb].
split; [done|]. split; [apply length_imap|].
rewrite length_imap.
destruct (Nat.eqb_spec (length data2) (length data1)) as [_|Hne]; [|by destruct Hne].
destruct (Nat.eqb_spec (length data1) (length data2)) as [_|Hne]; [|done].
cbn [negb]. unfold Uint8Array in *.
split; f_equal; apply list_eq; intros i; rewrite !list_lookup_imap.
- destruct (data1 !! i) as [d1|] eqn:H1, (data2 !! i) as [d2|] eqn:H2; cbn.
  + by rewrite N.lxor_comm.
  + apply lookup_lt_Some in H1. apply lookup_ge_None in H2. lia.
  + apply lookup_lt_Some in H2. apply lookup_ge_None in H1. lia.
  + done.
- destruct (data1 !! i) as [d1|] eqn:H1; [|done].
  cbn. f_equal. apply mask_twice.
  destruct (data2 !! i); [apply Byte.to_N_bounded|lia].
Qed.

(** The hexadecimal text written by [encryptToHex] has two
    characters for each byte, all of them among 0-9 and a-f, and the loop
    of [decryptFromHex] reads the bytes back from it, also when one stray
    character follows: the array has half the length, rounded down, and
    the write past its end is dropped. *)
Theorem hex_round_trip (bytes : Uint8Array) (stray : N) :
  length (bytesToHex bytes) = (2 * length bytes)%nat
  /\ forallb isLowerHex (bytesToHex bytes) = true
  /\ hexToBytes (bytesToHex bytes) = bytes
  /\ hexToBytes (bytesToHex bytes ++ [stray]) = bytes.
Proof.
split; [|split; [|split]].
- induction bytes as [|b bytes IH]; [done|].
  rewrite bytesToHex_cons, length_app, IH.
  destruct (byteToHex_reads_back b) as (hi & lo & -> & _). cbn. lia.
- induction bytes as [|b bytes IH]; [done|].
  rewrite bytesToHex_cons, forallb_app, IH.
  destruct (byteToHex_reads_back b) as (hi & lo & -> & _ & Hhi & Hlo).
  cbn [forallb]. by rewrite Hhi, Hlo.
- rewrite <- (app_nil_r (bytesToHex bytes)).
  rewrite hexToBytes_bytesToHex_app. apply app_nil_r.
- rewrite hexToBytes_bytesToHex_app. apply app_nil_r.
Qed.

(** Decrypting with the password a text was encrypted with gives
    the text back, whatever the digest of the password is, for every text
    the decoder restores from its encoding. *)
Theorem decrypt_undoes_encrypt (text password : JSString) :
  toString (fromString text) = text ->
  decryptFromHex (encryptToHex text password) password = text.
Proof.
intros Htext.
unfold Crypto.decryptFromHex, Crypto.encryptToHex, Crypto.xorCipher.
cbn [asBytes].
rewrite <- (app_nil_r (bytesToHex _)), hexToBytes_bytesToHex_app.
change (hexToBytes []) with (@nil Byte.byte).
rewrite app_nil_r, xorBytes_twice.
exact Htext.
Qed.

End Platform.

End CryptoFacts.

(** * The calibration overlay (components/CalibrationOverlay.tsx)

    The component's state, its ref and its pending one-second timeout are
    one record; a render followed by its effects is a function, and the
    calls made to the tracker and to [onComplete] are logged. *)

Module Calibration.

#[local] Open Scope Z_scope.

Record CalibrationPoint := { x : float; y : float }.


Record Overlay := {
  currentPointIndex : nat;
  countdown : Z;
  hasCompletedRef : bool;
  timer : bool
}.

(** [useState(0)], [useState(3)], [useRef(false)], no timeout. *)
Definition mounting : Overlay :=
  {| currentPointIndex := 0; countdown := 3;
     hasCompletedRef := false; timer := false |}.

Inductive Call :=
| RecordScreenPosition (screenX screenY : float)
| OnComplete.

Definition isOnComplete (c : Call) : bool :=
  match c with
  | OnComplete => true
  | RecordScreenPosition _ _ => false
  end.

Inductive Event :=
| TimerFired
| ParentRendered (newOnComplete : bool).

Section Component.

(** The points shown; the component reads [CALIBRATION_POINTS]. *)
Variable calibrationPoints : list CalibrationPoint.
(** [window.webgazer.recordScreenPosition], when the tracker and the
    method are there; the result tells whether the call returns (true)
    or throws. *)
Variable recordScreenPosition : option (float -> float -> bool).
Variable innerWidth innerHeight : float.

Definition currentPoint (st : Overlay) : option CalibrationPoint :=
  calibrationPoints !! currentPointIndex st.

Definition isComplete (st : Overlay) : bool :=
  (length calibrationPoints <=? currentPointIndex st)%nat.

Definition screenX (p : CalibrationPoint) : float := (x p * innerWidth)%float.
Definition screenY (p : CalibrationPoint) : float := (y p * innerHeight)%float.

(** The [forEach] of the completion effect inside its [try]: the first
    call that throws ends the loop. *)
Fixpoint recordEach (record : float -> float -> bool)
    (points : list CalibrationPoint) : list Call :=
  match points with
  | [] => []
  | p :: rest =>
      RecordScreenPosition (screenX p) (screenY p)
      :: (if record (screenX p) (screenY p) then recordEach record rest else [])
  end.

Definition recordAll : list Call :=
  match recordScreenPosition with
  | Some record => recordEach record calibrationPoints
  | None => []
  end.

(** The call of the countdown effect for the point just finished. *)
Definition recordPoint (point : option CalibrationPoint) : list Call :=
  match recordScreenPosition, point with
  | Some _, Some p => [RecordScreenPosition (screenX p) (screenY p)]
  | _, _ => []
  end.

Definition completionEffect (st : Overlay) : Overlay * list Call :=
  if negb (isComplete st) || hasCompletedRef st then (st, [])
  else ({| currentPointIndex := currentPointIndex st;
           countdown := countdown st;
           hasCompletedRef := true;
           timer := timer st |},
        (recordAll ++ [OnComplete])%list).

(** The countdown effect, after the cleanup of its previous run, which
    clears the timeout. *)
Definition countdownEffect (st : Overlay) : Overlay * list Call :=
  if isComplete st || hasCompletedRef st
  then ({| currentPointIndex := currentPointIndex st;
           countdown := countdown st;
           hasCompletedRef := hasCompletedRef st;
           timer := false |}, [])
  else if countdown st =? 0
  then ({| currentPointIndex := currentPointIndex st + 1;
           countdown := 3;
           hasCompletedRef := hasCompletedRef st;
           timer := false |},
        recordPoint (currentPoint st))
  else ({| currentPointIndex := currentPointIndex st;
           countdown := countdown st;
           hasCompletedRef := hasCompletedRef st;
           timer := true |}, []).

(** The points are distinct objects: [currentPoint] is the same
    dependency when it is undefined in both renders or the same element
    of the array. *)
Definition samePoint (prev st : Overlay) : bool :=
  match currentPoint prev, currentPoint st with
  | Some _, Some _ => (currentPointIndex prev =? currentPointIndex st)%nat
  | None, None => true
  | _, _ => false
  end.

Definition completionDepsChanged (prev st : Overlay) : bool :=
  negb (Bool.eqb (isComplete prev) (isComplete st)).

Definition countdownDepsChanged (prev st : Overlay) : bool :=
  negb (countdown prev =? countdown st)
  || negb (samePoint prev st)
  || negb (Bool.eqb (isComplete prev) (isComplete st)).

(** The effects of one render, in the order they are declared. *)
Definition effects (completionDue countdownDue : bool) (st : Overlay)
  : Overlay * list Call :=
  let '(st1, log1) := if completionDue then completionEffect st else (st, []) in
  let '(st2, log2) := if countdownDue then countdownEffect st1 else (st1, []) in
  (st2, (log1 ++ log2)%list).

Definition stateChanged (prev st : Overlay) : bool :=
  negb ((currentPointIndex prev =? currentPointIndex st)%nat
        && (countdown prev =? countdown st)).

(** A render of [st] after one of [prev], and the render its effects
    ask for by setting the state. *)
Definition rerender (newOnComplete : bool) (prev st : Overlay)
  : Overlay * list Call :=
  let '(st1, log1) :=
    effects (newOnComplete || completionDepsChanged prev st)
            (countdownDepsChanged prev st) st in
  if stateChanged st st1
  then let '(st2, log2) :=
         effects (completionDepsChanged st st1)
                 (countdownDepsChanged st st1) st1 in
       (st2, (log1 ++ log2)%list)
  else (st1, log1).

(** The first render: both effects run. *)
Definition mount : Overlay * list Call := effects true true mounting.

Definition handle (st : Overlay) (ev : Event) : Overlay * list Call :=
  match ev with
  | TimerFired =>
      if timer st
      then let next :=
             {| currentPointIndex := currentPointIndex st;
                countdown := Z.max (countdown st - 1) 0;
                hasCompletedRef := hasCompletedRef st;
                timer := false |} in
           if countdown next =? countdown st then (next, [])
           else rerender false st next
      else (st, [])
  | ParentRendered newOnComplete => rerender newOnComplete st st
  end.

Fixpoint run (st : Overlay) (events : list Event) : Overlay * list Call :=
  match events with
  | [] => (st, [])
  | ev :: rest =>
      let '(st1, log1) := handle st ev in
      let '(st2, log2) := run st1 rest in
      (st2, (log1 ++ log2)%list)
  end.

Definition session (events : list Event) : Overlay * list Call :=
  let '(st0, log0) := mount in
  let '(st1, log1) := run st0 events in
  (st1, (log0 ++ log1)%list).

End Component.

End Calibration.

(** * Properties of the calibration overlay *)

Section CalibrationFacts.

Import Calibration.

Variable calibrationPoints : list CalibrationPoint.
Variable recordScreenPosition : option (float -> float -> bool).
Variable innerWidth innerHeight : float.

#[local] Abbreviation isComplete := (isComplete calibrationPoints).
#[local] Abbreviation recordPoint :=
  (recordPoint recordScreenPosition innerWidth innerHeight).
#[local] Abbreviation recordAll :=
  (recordAll calibrationPoints recordScreenPosition innerWidth innerHeight).
#[local] Abbreviation completionEffect :=
  (completionEffect calibrationPoints recordScreenPosition innerWidth innerHeight).
#[local] Abbreviation countdownEffect :=
  (countdownEffect calibrationPoints recordScreenPosition innerWidth innerHeight).
#[local] Abbreviation effects :=
  (effects calibrationPoints recordScreenPosition innerWidth innerHeight).
#[local] Abbreviation rerender :=
  (rerender calibrationPoints recordScreenPosition innerWidth innerHeight).
#[local] Abbreviation mount :=
  (mount calibrationPoints recordScreenPosition innerWidth innerHeight).
#[local] Abbreviation handle :=
  (handle calibrationPoints recordScreenPosition innerWidth innerHeight).
#[local] Abbreviation run :=
  (run calibrationPoints recordScreenPosition innerWidth innerHeight).
#[local] Abbreviation session :=
  (session calibrationPoints recordScreenPosition innerWidth innerHeight).

(** The overlay while point [i] is shown with [c] on its face. *)
Definition showing (i : nat) (c : Z) : Overlay :=
  {| currentPointIndex := i; countdown := c;
     hasCompletedRef := false; timer := true |}.

(** The overlay once [onComplete] was called. *)
Definition finished : Overlay :=
  {| currentPointIndex := length calibrationPoints; countdown := 3;
     hasCompletedRef := true; timer := false |}.

Definition onCompletes (log : list Call) : nat :=
  length (filter (fun c => isOnComplete c = true) log).

Ltac overlay_unfold :=
  unfold Calibration.handle, Calibration.rerender, Calibration.effects,
    Calibration.completionEffect, Calibration.countdownEffect,
    Calibration.completionDepsChanged, Calibration.countdownDepsChanged,
    Calibration.stateChanged, Calibration.samePoint, Calibration.currentPoint,
    Calibration.isComplete;
  cbn [showing finished currentPointIndex countdown hasCompletedRef timer].

Ltac overlay_step :=
  cbn [negb orb andb Bool.eqb app
       currentPointIndex countdown hasCompletedRef timer];
  rewrite ?Z.eqb_refl, ?Nat.eqb_refl, ?Nat.leb_refl.







Lemma mount_shows_first :
  (0 < length calibrationPoints)%nat -> mount = (showing 0 3, []).
Proof.
intros Hn.
assert (Hlt : (length calibrationPoints <=? 0)%nat = false) by by apply Nat.leb_gt.
assert (E30 : (3 =? 0) = false) by done.
unfold Calibration.mount. overlay_unfold.
repeat (progress (overlay_step; unfold mounting; rewrite ?Hlt, ?E30)).
done.
Qed.

Lemma mount_without_points :
  calibrationPoints = [] -> mount = (finished, (recordAll ++ [OnComplete])%list).
Proof.
intros Hn.
unfold Calibration.mount. overlay_unfold.
rewrite Hn. cbn [length].
repeat (progress (overlay_step; unfold mounting; cbn [Nat.leb])).
unfold finished. rewrite Hn. by rewrite app_nil_r.
Qed.









Lemma onCompletes_app (log1 log2 : list Call) :
  onCompletes (log1 ++ log2) = (onCompletes log1 + onCompletes log2)%nat.
Proof. unfold onCompletes. by rewrite filter_app, length_app. Qed.

Lemma onCompletes_recordEach (record : float -> float -> bool)
    (points : list CalibrationPoint) :
  onCompletes (recordEach innerWidth innerHeight record points) = 0%nat.
Proof.
induction points as [|p points IH]; [done|].
cbn [recordEach].
change (onCompletes (?c :: ?l)) with (onCompletes ([c] ++ l)).
rewrite onCompletes_app.
destruct (record _ _); [by rewrite IH|done].
Qed.

Lemma onCompletes_recordAll : onCompletes recordAll = 0%nat.
Proof.
unfold Calibration.recordAll.
destruct recordScreenPosition; [apply onCompletes_recordEach|done].
Qed.

Lemma onCompletes_recordPoint (point : option CalibrationPoint) :
  onCompletes (recordPoint point) = 0%nat.
Proof.
unfold Calibration.recordPoint.
by destruct recordScreenPosition, point.
Qed.

(** The ref is raised exactly when the index is past the last point. *)
Definition settled (st : Overlay) : Prop :=
  hasCompletedRef st = isComplete st.

Definition completions (st : Overlay) : nat :=
  if hasCompletedRef st then 1 else 0.

Lemma handle_settled (st : Overlay) (ev : Event) :
  settled st ->
  settled (fst (handle st ev))
  /\ (onCompletes (snd (handle st ev)) + completions st)%nat
     = completions (fst (handle st ev)).
Proof.
destruct st as [i c h t].
unfold settled, completions, Calibration.isComplete.
cbn [currentPointIndex hasCompletedRef]. intros ->.
destruct ev as [|newOnComplete]; overlay_unfold.
- set (b0 := (length calibrationPoints <=? i)%nat).
  set (b1 := (length calibrationPoints <=? i + 1)%nat).
  assert (Hne : (i =? i + 1)%nat = false) by (apply Nat.eqb_neq; lia).
  assert (E30 : (3 =? 0) = false) by done.
  assert (E03 : (0 =? 3) = false) by done.
  destruct t; [|by cbn [fst snd hasCompletedRef currentPointIndex]].
  cbn [countdown currentPointIndex hasCompletedRef timer].
  destruct (Z.max (c - 1) 0 =? c) eqn:E1;
    [by cbn [fst snd hasCompletedRef currentPointIndex]|].
  rewrite (Z.eqb_sym c), E1.
  destruct b0 eqn:Hb0.
  + repeat (progress (overlay_step; fold b0 b1; rewrite ?Hb0)).
    by cbn [fst snd hasCompletedRef currentPointIndex].
  + repeat (progress (overlay_step; fold b0 b1; rewrite ?Hb0)).
    destruct (Z.max (c - 1) 0 =? 0) eqn:E2.
    * apply Z.eqb_eq in E2. rewrite E2.
      repeat (progress (overlay_step; fold b0 b1; rewrite ?Hb0, ?Hne, ?E30, ?E03)).
      destruct b1 eqn:Hb1.
      -- repeat (progress (overlay_step; fold b0 b1; rewrite ?Hb0, ?Hb1,?Hne, ?E30, ?E03)).
         cbn [fst snd hasCompletedRef currentPointIndex]. fold b1.
         rewrite !onCompletes_app, onCompletes_recordAll, onCompletes_recordPoint.
         done.
      -- repeat (progress (overlay_step; fold b0 b1; rewrite ?Hb0, ?Hb1,?Hne, ?E30, ?E03)).
         cbn [fst snd hasCompletedRef currentPointIndex]. fold b1.
         rewrite !onCompletes_app, onCompletes_recordPoint.
         done.
    * repeat (progress (overlay_step; fold b0 b1; rewrite ?Hb0, ?Hne, ?E30, ?E03)).
      by cbn [fst snd hasCompletedRef currentPointIndex].
- set (b0 := (length calibrationPoints <=? i)%nat).
  assert (Hsame : match calibrationPoints !! i with
                  | Some _ => match calibrationPoints !! i with
                              | Some _ => (i =? i)%nat | None => false end
                  | None => match calibrationPoints !! i with
                              | Some _ => false | None => true end
                  end = true).
  { destruct (calibrationPoints !! i); [apply Nat.eqb_refl|done]. }
  rewrite Hsame.
  destruct newOnComplete, b0 eqn:Hb0;
    repeat (progress (overlay_step; fold b0; rewrite ?Hb0));
    by cbn [fst snd hasCompletedRef currentPointIndex].
Qed.

Lemma run_settled (st : Overlay) (events : list Event) :
  settled st ->
  settled (fst (run st events))
  /\ (onCompletes (snd (run st events)) + completions st)%nat
     = completions (fst (run st events)).
Proof.
revert st. induction events as [|ev events IH]; intros st Hst; [done|].
cbn [Calibration.run].
destruct (handle_settled st ev Hst) as [Hst1 Hcount1].
destruct (handle st ev) as [st1 log1].
destruct (IH st1 Hst1) as [Hst2 Hcount2].
destruct (run st1 events) as [st2 log2].
cbn [fst snd] in *.
split; [done|]. rewrite onCompletes_app. lia.
Qed.

Lemma mount_settled :
  settled (fst mount) /\ onCompletes (snd mount) = completions (fst mount).
Proof.
destruct (Nat.eq_dec (length calibrationPoints) 0%nat) as [Hlen|Hlen].
- assert (Hnil : calibrationPoints = []) by by apply length_zero_iff_nil.
  rewrite mount_without_points by done.
  split.
  + unfold settled, Calibration.isComplete. cbn. by rewrite Nat.leb_refl.
  + cbn [fst snd]. by rewrite onCompletes_app, onCompletes_recordAll.
- rewrite mount_shows_first by lia.
  split; [|done].
  unfold settled, Calibration.isComplete. cbn.
  symmetry. apply Nat.leb_gt. lia.
Qed.

(** Whatever timers fire and whenever the parent renders again, with the
    same or with a new [onComplete]: [onComplete] was called once if the
    index is past the last point and not at all otherwise, and the ref
    that guards the call is raised exactly then. *)
Theorem onComplete_called_once (events : list Event) :
  hasCompletedRef (fst (session events)) = isComplete (fst (session events))
  /\ onCompletes (snd (session events))
     = if isComplete (fst (session events)) then 1%nat else 0%nat.
Proof.
unfold Calibration.session.
destruct mount_settled as [Hst0 Hcount0].
destruct mount as [st0 log0].
destruct (run_settled st0 events Hst0) as [Hst1 Hcount1].
destruct (run st0 events) as [st1 log1].
cbn [fst snd] in *.
split; [exact Hst1|].
rewrite onCompletes_app, <- Hst1.
unfold completions in *. lia.
Qed.

End CalibrationFacts.

(** * Concrete runs of the pointer, the session, the cipher and the overlay *)

Section PauseRuns.
Import GazeFilter.
#[local] Existing Instance RefMath.
#[local] Open Scope float_scope.

(** One sample at the origin at time 0, the next one five seconds later
    and 14 px away. *)
Lemma long_pause_restarts_filter_example :
  computeFilteredGazePoint (feed resetSmoothingState [at00]) 10 10 5000
  = ({| px := 10; py := 10 |},
     {| gazeHistory := [{| x := 10; y := 10; time := 5000 |}];
        smoothedPoint := Some {| x := 10; y := 10; time := 5000 |} |}).
Proof.
  apply (long_pause_restarts_filter [at00] 0 10 10 5000).
  - repeat constructor.
  - vm_compute. reflexivity.
  - unfold GAZE_HISTORY_MS. lia.
  - vm_compute. reflexivity.
  - vm_compute. reflexivity.
Defined.

End PauseRuns.

Section WheelPointerRuns.
Import Wheel.
#[local] Existing Instance RefMath.
#[local] Open Scope float_scope.

(** The rectangle of the North cell of the grid. *)
Definition northRect : DOMRect :=
  {| left := 100; top := 0; right := 100 + 100; bottom := 0 + 100;
     width := 100; height := 100 |}.

(** A pointer in the middle of the North cell resolves to it. *)
Lemma resolved_zone_is_sound_example :
  (0 < length ZONE_NAMES)%nat
  /\ isZoneInteractive en initial 0 = true
  /\ exists r,
       zoneRect (pointerAt 150 50) 0 = Some r
       /\ (pointerInside (pointerAt 150 50) r = true
           \/ (toleranceFor initial 0
               <? normalizedDistanceTo (pointerAt 150 50) r) = false).
Proof.
  apply (resolved_zone_is_sound en initial (pointerAt 150 50) 0).
  vm_compute. reflexivity.
Defined.

(** The North cell contains the pointer, so some containing cell wins. *)
Lemma containing_zone_wins_example :
  exists z rz,
    resolveZone en initial (pointerAt 150 50) = Some z
    /\ zoneRect (pointerAt 150 50) z = Some rz
    /\ pointerInside (pointerAt 150 50) rz = true.
Proof.
  apply (containing_zone_wins en initial (pointerAt 150 50) 0 northRect).
  - cbn. lia.
  - vm_compute. reflexivity.
  - vm_compute. reflexivity.
  - vm_compute. reflexivity.
Defined.

(** The commit of the frame at 6500 is for the hovered North zone. *)
Lemma dwell_commits_interactive_zone_example :
  let st := fst (run en initial [Gaze (pointerAt 150 50) 5000]) in
  Frame 6500 = Frame 6500
  /\ hoveredZone st = Some 0%nat
  /\ isZoneInteractive en st 0 = true.
Proof.
  apply (dwell_commits_interactive_zone en [Gaze (pointerAt 150 50) 5000]
           (Frame 6500) 0 6500).
  vm_compute. left. reflexivity.
Defined.

(** After the North commit at 6500 the next commit, of the letter B,
    comes at 9100. *)
Lemma commits_are_spaced_example :
  snd (run en northCommitted
         [Gaze (pointerAt 150 50) 7600; Frame 7600; Frame 9100])
  = [OnSelection "B"; Commit 0%nat 9100]
  /\ (6500 + COOLDOWN_TIME + DWELL_TIME <= 9100)%Z.
Proof.
  split; [vm_compute; reflexivity|].
  apply (commits_are_spaced en hoveringNorth northCommitted 6500 northLog
           [Gaze (pointerAt 150 50) 7600; Frame 7600; Frame 9100] 0 9100).
  - apply surjective_pairing.
  - vm_compute. discriminate.
  - vm_compute. right. left. reflexivity.
Defined.

(** With the West group chosen, zone 7 shows U and sends U. *)
Lemma shown_letter_is_sent_example :
  handleZoneActivation en westChosen (Some 7%nat) 3000
  = (if truthy (WheelView.title (WheelView.renderCellContent en westChosen 7))
     then (commit (resetSelection westChosen) 3000,
           [OnSelection
              (WheelView.title (WheelView.renderCellContent en westChosen 7));
            Commit 7%nat 3000])
     else (westChosen, [])).
Proof.
  apply (shown_letter_is_sent en westChosen 7 3000).
  - vm_compute. reflexivity.
  - vm_compute. discriminate.
  - vm_compute. discriminate.
Defined.

End WheelPointerRuns.

Section SessionRuns.
Import GazeFilter Session.
#[local] Existing Instance RefMath.
#[local] Open Scope float_scope.

(** A session that was started and calibrated and has published the
    sample of time 3000. *)
Definition live : Hook :=
  fst (runEvents true mounted
         [StartTracking None 1000; BeginResolved; CalibrationDone 2000;
          GazeSample (Some {| predX := 100; predY := 100 |}) 0 3000]).

(** After the stop button nothing comes out of samples, ticks, timers
    and promise outcomes. *)
Lemma stopped_session_is_silent_example :
  let h := fst (handle true live StopTracking) in
  let events :=
    [GazeSample (Some {| predX := 120; predY := 90 |}) 0 3100;
     HealthTick 40000; RestartTimerFired; CalibrationDone 41000;
     BeginResolved] in
  snd (runEvents true h events) = []
  /\ halted (fst (runEvents true h events)).
Proof.
  apply (stopped_session_is_silent true live StopTracking
           [GazeSample (Some {| predX := 120; predY := 90 |}) 0 3100;
            HealthTick 40000; RestartTimerFired; CalibrationDone 41000;
            BeginResolved]).
  - reflexivity.
  - reflexivity.
Defined.

(** A session kept fresh for 81 seconds by two samples: no tick comes
    more than 25 seconds after the latest result. *)
Lemma no_restart_while_fresh_example :
  Forall (fun o => o <> Paused)
    (snd (runEvents true live
            [HealthTick 7000; HealthTick 27000;
             GazeSample (Some {| predX := 120; predY := 90 |}) 0 27500;
             HealthTick 51000;
             GazeSample (Some {| predX := 125; predY := 95 |}) 0 60000;
             HealthTick 84000])).
Proof.
  apply (no_restart_while_fresh true live 3000).
  - intros lr [= <-]. lia.
  - vm_compute. reflexivity.
Defined.

(** The tick at 40000 finds the last result 37 seconds old: one pause,
    one resume, although another tick comes before the timer. *)
Lemma restart_is_single_flight_example :
  let r := runEvents true live
             (HealthTick 40000 :: [HealthTick 44000] ++ [RestartTimerFired]) in
  snd r = [Paused; Resumed]
  /\ restarting (fst r) = false
  /\ restartTimer (fst r) = false
  /\ lastResult (tracker (fst r)) = Some 40000%Z
  /\ status (tracker (fst r)) = reconnecting.
Proof.
  apply (restart_is_single_flight live 3000 40000 [HealthTick 44000]).
  - vm_compute. reflexivity.
  - vm_compute. reflexivity.
  - vm_compute. reflexivity.
  - vm_compute. reflexivity.
  - discriminate.
  - unfold AUTO_RESTART_THRESHOLD. lia.
  - reflexivity.
Defined.

End SessionRuns.

Section CryptoRuns.
Import Crypto.

#[local] Open Scope N_scope.

(** An encoder and a decoder that agree on the texts made of code units
    below 128, as UTF-8 does, and a digest of four bytes. *)
Definition encodeUnits (s : JSString) : Uint8Array := map toUint8 s.
Definition decodeUnits (b : Uint8Array) : JSString := map Byte.to_N b.
Definition digestOf (s : JSString) : Uint8Array :=
  map toUint8 [17 + N.of_nat (length s); 250; 3; 128].

(** The text "Hi!" under the password "pw". *)
Lemma decrypt_undoes_encrypt_example :
  decryptFromHex encodeUnits decodeUnits digestOf
    (encryptToHex encodeUnits digestOf [72; 105; 33] [112; 119]) [112; 119]
  = [72; 105; 33].
Proof.
  apply (decrypt_undoes_encrypt encodeUnits decodeUnits digestOf
           [72; 105; 33] [112; 119]).
  vm_compute. reflexivity.
Defined.

End CryptoRuns.

Section CalibrationRuns.
Import Calibration.
#[local] Open Scope float_scope.


End CalibrationRuns.
